(** * CryoCanvas: the fit / predict orchestration of [cryocanvas/app.py]

    A shallow embedding of the array glue and of the event handlers of
    [CryoCanvasApp], and the properties of the specification that are
    about them.

    - numpy arrays are a shape and a C-ordered buffer;
    - Python exceptions are values of [exn], carried by [result];
    - the scikit-learn / XGBoost estimators are opaque: a fitted model is
      its [classes_] and a per-sample decision rule, the training
      procedures are parameters of the development;
    - label arrays have dtype i4; labels are modelled in [Z], the only
      arithmetic on them is [- 1] on positive labels and [+ 1] on the
      classes obtained that way, which never leaves the i4 range. *)

From Stdlib Require Import ZArith QArith String List Lia Sorted.
From stdpp Require Import base list gmap strings sorting relations.

Local Open Scope string_scope.
Local Open Scope list_scope.
Local Open Scope nat_scope.

(** ** Exceptions and results *)

Inductive exn : Type :=
  | ValueError (msg : string)
  | IndexError (msg : string)
  | AttributeError (msg : string).

Inductive result (T : Type) : Type :=
  | Ok (t : T)
  | Raise (e : exn).
Arguments Ok {T} t.
Arguments Raise {T} e.

#[global] Instance result_ret : MRet result := fun _ x => Ok x.
#[global] Instance result_bind : MBind result :=
  fun _ _ f m => match m with Ok x => f x | Raise e => Raise e end.

Module Np.

(** ** numpy arrays *)

Record ndarray (A : Type) : Type := NDArray { shape : list nat; data : list A }.
Arguments NDArray {A} shape data.
Arguments shape {A} _.
Arguments data {A} _.

(** [np.prod(shape)] *)
Definition size_of (s : list nat) : nat := foldr Nat.mul 1 s.

Definition wf {A} (a : ndarray A) : Prop := length (data a) = size_of (shape a).

(** Flat offset of a multi-index in C order, and back. *)
Fixpoint ravel (s idx : list nat) : nat :=
  match s, idx with
  | _ :: s', i :: idx' => i * size_of s' + ravel s' idx'
  | _, _ => 0
  end.

Fixpoint unravel (s : list nat) (k : nat) : list nat :=
  match s with
  | [] => []
  | _ :: s' => (k / size_of s') :: unravel s' (k mod size_of s')
  end.

(** A multi-index within the bounds of a shape. *)
Definition in_bounds (idx s : list nat) : Prop := Forall2 lt idx s.

(** [a[i0, i1, ...]] *)
Definition item {A} `{!Inhabited A} (a : ndarray A) (idx : list nat) : A :=
  data a !!! ravel (shape a) idx.

(** [a.flatten()] *)
Definition flatten {A} (a : ndarray A) : ndarray A :=
  NDArray [length (data a)] (data a).

(** [a.reshape(s)] *)
Definition reshape {A} (a : ndarray A) (s : list nat) : result (ndarray A) :=
  if decide (size_of s = length (data a)) then Ok (NDArray s (data a))
  else Raise (ValueError "cannot reshape array into shape").

(** [a.shape[-1]] *)
Definition shape_last {A} (a : ndarray A) : result nat :=
  match last (shape a) with
  | Some F => Ok F
  | None => Raise (IndexError "tuple index out of range")
  end.

(** [a.shape[:-1]] *)
Definition shape_init {A} (a : ndarray A) : list nat := removelast (shape a).

(** [a.reshape(-1, F)]: the unknown dimension is inferred, which fails when
    [F] is 0 or does not divide the size. *)
Definition reshape_rows {A} (a : ndarray A) (F : nat) : result (ndarray A) :=
  if decide (F = 0) then
    Raise (ValueError "cannot reshape array: unknown dimension not inferable")
  else if decide (length (data a) mod F = 0) then
    Ok (NDArray [length (data a) / F; F] (data a))
  else Raise (ValueError "cannot reshape array into shape").

(** Row [r] of a buffer read as rows of [F] entries. *)
Definition row {A} (F : nat) (buf : list A) (r : nat) : list A :=
  take F (drop (r * F) buf).

(** The rows of a 2-d array. *)
Definition rows {A} (a : ndarray A) : list (list A) :=
  match shape a with
  | [N; F] => map (row F (data a)) (seq 0 N)
  | _ => []
  end.

(** [np.transpose(a)]: the axes are reversed. *)
Definition transpose {A} `{!Inhabited A} (a : ndarray A) : ndarray A :=
  let s' := reverse (shape a) in
  NDArray s'
    (map (fun k => data a !!! ravel (shape a) (reverse (unravel s' k)))
         (seq 0 (size_of s'))).

(** [np.squeeze(a)]: axes of length one are dropped. *)
Definition squeeze {A} (a : ndarray A) : ndarray A :=
  NDArray (filter (fun n => n ≠ 1) (shape a)) (data a).

(** [a + c] and [a - c] on an integer array. *)
Definition add_scalar (a : ndarray Z) (c : Z) : ndarray Z :=
  NDArray (shape a) (map (fun v => (v + c)%Z) (data a)).

(** [slice(start, stop)] with non-negative bounds. *)
Record slice : Type := Slice { start : nat; stop : nat }.

Definition slice_start (n : nat) (sl : slice) : nat := start sl `min` n.
Definition slice_len (n : nat) (sl : slice) : nat :=
  (stop sl `min` n) - (start sl `min` n).

(** The multi-index in the source array of a multi-index of the slice. *)
Fixpoint shift_index (s : list nat) (mask : list slice) (idx : list nat) : list nat :=
  match s, mask, idx with
  | n :: s', sl :: mask', i :: idx' =>
      (slice_start n sl + i) :: shift_index s' mask' idx'
  | _, _, _ => idx
  end.

Fixpoint sliced_shape (s : list nat) (mask : list slice) : list nat :=
  match s, mask with
  | n :: s', sl :: mask' => slice_len n sl :: sliced_shape s' mask'
  | _, _ => s
  end.

(** [a[sl0, sl1, ...]]: basic indexing by a tuple of slices; the remaining
    axes are taken whole. *)
Definition getitem {A} `{!Inhabited A} (a : ndarray A) (mask : list slice)
  : result (ndarray A) :=
  if decide (length mask ≤ length (shape a)) then
    let s' := sliced_shape (shape a) mask in
    Ok (NDArray s'
          (map (fun k => data a !!! ravel (shape a)
                                  (shift_index (shape a) mask (unravel s' k)))
               (seq 0 (size_of s'))))
  else Raise (IndexError "too many indices for array").

(** [a[valid]] on a 1-d array, [valid] a boolean array. *)
Fixpoint compress {A} (valid : list bool) (l : list A) : list A :=
  match valid, l with
  | b :: valid', x :: l' => if b then x :: compress valid' l' else compress valid' l'
  | _, _ => []
  end.

Definition bool_index {A} (a : list A) (valid : list bool) : result (list A) :=
  if decide (length valid = length a) then Ok (compress valid a)
  else Raise (IndexError "boolean index did not match indexed array").

(** [a[valid, :]] on a 2-d array. *)
Definition bool_index_rows {A} (a : ndarray A) (valid : list bool)
  : result (ndarray A) :=
  match shape a with
  | [N; F] =>
      if decide (length valid = N) then
        let kept := compress valid (rows a) in
        Ok (NDArray [length kept; F] (concat kept))
      else Raise (IndexError "boolean index did not match indexed array")
  | _ => Raise (IndexError "too many indices for array")
  end.

(** [np.concatenate(arrays, axis=1)] on 2-d arrays. *)
Fixpoint concatenate_axis1 {A} (arrays : list (ndarray A)) : result (ndarray A) :=
  match arrays with
  | [] => Raise (ValueError "need at least one array to concatenate")
  | [a] =>
      match shape a with
      | [_; _] => Ok a
      | _ => Raise (ValueError "axis 1 is out of bounds")
      end
  | a :: rest =>
      b ← concatenate_axis1 rest;
      match shape a, shape b with
      | [N; F], [N'; F'] =>
          if decide (N = N') then
            Ok (NDArray [N; F + F']
                  (concat (zip_with app (rows a) (rows b))))
          else Raise (ValueError "all the input array dimensions except for the concatenation axis must match exactly")
      | _, _ => Raise (ValueError "axis 1 is out of bounds")
      end
  end.

(** [np.unique(l)]: the sorted distinct values. *)
Fixpoint insert_sorted (x : Z) (l : list Z) : list Z :=
  match l with
  | [] => [x]
  | y :: l' =>
      if (x <? y)%Z then x :: l
      else if (x =? y)%Z then l
      else y :: insert_sorted x l'
  end.

Definition unique (l : list Z) : list Z := foldr insert_sorted [] l.

(** [np.bincount(l)] *)
Definition bincount (l : list nat) : list nat :=
  match l with
  | [] => []
  | _ => map (fun i => length (filter (fun j => j = i) l)) (seq 0 (S (max_list l)))
  end.

(** The flat positions of the true entries of a boolean array. *)
Definition nonzero_flat (mask : ndarray bool) : list nat :=
  filter (fun k => data mask !! k = Some true) (seq 0 (length (data mask))).

(** [np.where(mask)] on an n-d boolean array: one index array per axis,
    holding the coordinates of the true entries in C order. *)
Definition where_ (mask : ndarray bool) : list (list nat) :=
  let hits := map (unravel (shape mask)) (nonzero_flat mask) in
  map (fun axis => map (fun idx => idx !!! axis) hits) (seq 0 (length (shape mask))).

(** [a[i0, i1, ...] = v] with integer indices on a bounds-checked (zarr)
    array; with fewer indices than axes the whole sub-block is filled. *)
Definition setitem {A} (a : ndarray A) (idx : list nat) (v : A) : result (ndarray A) :=
  if decide (length idx ≤ length (shape a)) then
    if decide (Forall2 lt idx (take (length idx) (shape a))) then
      Ok (NDArray (shape a)
            (imap (fun k x =>
                     if decide (take (length idx) (unravel (shape a) k) = idx)
                     then v else x)
                  (data a)))
    else Raise (IndexError "index out of bounds for dimension")
  else Raise (IndexError "too many indices for array").

End Np.

Import Np.

(** ** scikit-learn pieces used by [fit_model] *)

Module Sk.

(** [np.searchsorted(classes, c)]: the position of [c] among the sorted
    classes, as [LabelEncoder.transform] computes it. *)
Definition searchsorted (classes : list Z) (c : Z) : nat :=
  length (filter (fun x => (x < c)%Z) classes).

Definition QofN (n : nat) : Q := inject_Z (Z.of_nat n).

#[global] Instance Q_inhabited : Inhabited Q := populate 0%Q.

(** [compute_class_weight("balanced", classes=classes, y=y)]:
    [len(y) / (len(le.classes_) * np.bincount(y_ind))], read at the
    positions of [classes]. *)
Definition compute_class_weight (classes y : list Z) : result (list Q) :=
  let le_classes := unique y in
  let y_ind := map (searchsorted le_classes) y in
  if decide (Forall (fun c => c ∈ le_classes) classes) then
    let recip_freq :=
      map (fun cnt => (QofN (length y) / (QofN (length le_classes) * QofN cnt))%Q)
          (bincount y_ind) in
    Ok (map (fun c => recip_freq !!! searchsorted le_classes c) classes)
  else Raise (ValueError "classes should have valid labels that are in y").

End Sk.

(** [dict(pairs)]: later pairs overwrite earlier ones. *)
Definition dict {V} (pairs : list (Z * V)) : gmap Z V :=
  foldl (fun m kv => <[kv.1 := kv.2]> m) ∅ pairs.

(** Python's [==] between a tuple and an int, as in [shape == 0]. *)
Inductive pyobj : Type :=
  | PyInt (n : Z)
  | PyTuple (items : list Z).

Definition py_eq (a b : pyobj) : bool :=
  match a, b with
  | PyInt n, PyInt m => bool_decide (n = m)
  | PyTuple xs, PyTuple ys => bool_decide (xs = ys)
  | _, _ => false
  end.

Definition py_shape (s : list nat) : pyobj := PyTuple (map Z.of_nat s).

(** [np.any(b)] of a Python bool. *)
Definition np_any (b : bool) : bool := b.

(** ** The application *)

Section App.

(** Feature values (float32 in the zarr store); only moved around. *)
Context {R : Type} `{!Inhabited R}.

(** A fitted estimator: its [classes_] and, per sample, the position in
    [classes_] of the most probable class ([np.argmax] over the class
    probabilities, always a valid position). *)
Record Classifier : Type := {
  classes_ : list Z;
  decision : list R -> nat;
  decision_lt : forall x, decision x < length classes_
}.

(** [clf.predict(X)]: [classes_.take(argmax)] per row. *)
Definition clf_predict (clf : Classifier) (X : ndarray R) : ndarray Z :=
  NDArray (take 1 (shape X))
          (map (fun x => classes_ clf !!! decision clf x) (rows X)).

(** The training procedures, [RandomForestClassifier(...).fit(X, y)] with
    [class_weight] and [XGBClassifier(...).fit(X, y, sample_weight)]; both
    may raise. *)
Variable rf_fit : ndarray R -> list Z -> gmap Z Q -> result Classifier.
Variable xgb_fit : ndarray R -> list Z -> list (option Q) -> result Classifier.

Record Widget : Type := {
  model_dropdown : string;
  data_dropdown : string;
  live_fit_checkbox : bool;
  live_pred_checkbox : bool;
  status : string
}.

(** A job handed to the single-worker executor, with the arguments bound
    to its completion callback. *)
Inductive Task : Type :=
  | FitTask (labels : ndarray Z) (features : ndarray R) (model_type : string)
            (live_prediction use_skimage_features : bool)
  | PredictTask (features : ndarray R).

Record App : Type := {
  image_data : ndarray R;
  feature_data_skimage : ndarray R;
  feature_data_tomotwin : ndarray R;
  painting_data : ndarray Z;
  prediction_layer_data : ndarray Z;
  current_step : list nat;
  corner_pixels : list nat * list nat;
  widget : Widget;
  model : option Classifier;
  executor : list Task
}.

Definition set_status (app : App) (s : string) : App :=
  {| image_data := image_data app;
     feature_data_skimage := feature_data_skimage app;
     feature_data_tomotwin := feature_data_tomotwin app;
     painting_data := painting_data app;
     prediction_layer_data := prediction_layer_data app;
     current_step := current_step app;
     corner_pixels := corner_pixels app;
     widget := {| model_dropdown := model_dropdown (widget app);
                  data_dropdown := data_dropdown (widget app);
                  live_fit_checkbox := live_fit_checkbox (widget app);
                  live_pred_checkbox := live_pred_checkbox (widget app);
                  status := s |};
     model := model app;
     executor := executor app |}.

Definition set_model (app : App) (m : option Classifier) : App :=
  {| image_data := image_data app;
     feature_data_skimage := feature_data_skimage app;
     feature_data_tomotwin := feature_data_tomotwin app;
     painting_data := painting_data app;
     prediction_layer_data := prediction_layer_data app;
     current_step := current_step app;
     corner_pixels := corner_pixels app;
     widget := widget app;
     model := m;
     executor := executor app |}.

Definition set_prediction_layer_data (app : App) (a : ndarray Z) : App :=
  {| image_data := image_data app;
     feature_data_skimage := feature_data_skimage app;
     feature_data_tomotwin := feature_data_tomotwin app;
     painting_data := painting_data app;
     prediction_layer_data := a;
     current_step := current_step app;
     corner_pixels := corner_pixels app;
     widget := widget app;
     model := model app;
     executor := executor app |}.

Definition set_painting_data (app : App) (a : ndarray Z) : App :=
  {| image_data := image_data app;
     feature_data_skimage := feature_data_skimage app;
     feature_data_tomotwin := feature_data_tomotwin app;
     painting_data := a;
     prediction_layer_data := prediction_layer_data app;
     current_step := current_step app;
     corner_pixels := corner_pixels app;
     widget := widget app;
     model := model app;
     executor := executor app |}.

(** [self.executor.submit(...)] followed by [add_done_callback(...)] *)
Definition submit (app : App) (t : Task) : App :=
  {| image_data := image_data app;
     feature_data_skimage := feature_data_skimage app;
     feature_data_tomotwin := feature_data_tomotwin app;
     painting_data := painting_data app;
     prediction_layer_data := prediction_layer_data app;
     current_step := current_step app;
     corner_pixels := corner_pixels app;
     widget := widget app;
     model := model app;
     executor := executor app ++ [t] |}.

(** [t[i]] on a tuple or 1-d array of indices. *)
Definition at_ (l : list nat) (i : nat) : result nat :=
  match l !! i with
  | Some x => Ok x
  | None => Raise (IndexError "index out of range")
  end.

Definition _get_mask_idx (app : App) (data_choice : string) : result (list slice) :=
  if String.eqb data_choice "Whole Image" then
    Ok (map (fun sz => Slice 0 sz) (shape (image_data app)))
  else
    step0 ← at_ (current_step app) 0;
    c01 ← at_ (corner_pixels app).1 1;
    c11 ← at_ (corner_pixels app).2 1;
    c02 ← at_ (corner_pixels app).1 2;
    c12 ← at_ (corner_pixels app).2 2;
    Ok [Slice step0 (step0 + 1); Slice c01 c11; Slice c02 c12].

Definition _get_active_image_and_labels (app : App) (mask_idx : list slice)
  : result (ndarray R * ndarray Z) :=
  active_image ← getitem (image_data app) mask_idx;
  active_labels ← getitem (painting_data app) mask_idx;
  Ok (active_image, active_labels).

(** [arr[mask_idx].reshape(-1, arr.shape[-1])] *)
Definition masked_rows (arr : ndarray R) (mask_idx : list slice) : result (ndarray R) :=
  sub ← getitem arr mask_idx;
  F ← shape_last arr;
  reshape_rows sub F.

Definition no_features : exn := ValueError "No features selected for computation.".

Definition _get_features (app : App) (mask_idx : list slice)
    (use_skimage_features use_tomotwin_features : bool) : result (ndarray R) :=
  f1 ← (if use_skimage_features
        then a ← masked_rows (feature_data_skimage app) mask_idx; Ok [a]
        else Ok []);
  f2 ← (if use_tomotwin_features
        then a ← masked_rows (feature_data_tomotwin app) mask_idx; Ok [a]
        else Ok []);
  let features := f1 ++ f2 in
  match features with
  | [] => Raise no_features
  | _ => concatenate_axis1 features
  end.

Definition _get_training_features_and_labels (app : App) (data_choice : string)
    (use_skimage_features use_tomotwin_features : bool)
  : result (ndarray R * ndarray Z) :=
  mask_idx ← _get_mask_idx app data_choice;
  f1 ← (if use_skimage_features
        then a ← masked_rows (feature_data_skimage app) mask_idx; Ok [a]
        else Ok []);
  f2 ← (if use_tomotwin_features
        then a ← masked_rows (feature_data_tomotwin app) mask_idx; Ok [a]
        else Ok []);
  _ ← (match f1 ++ f2 with
       | [] => Raise no_features
       | features => concatenate_axis1 features
       end);
  if String.eqb data_choice "Current Displayed Region" then
    training_features ← _get_features app mask_idx use_skimage_features
                                      use_tomotwin_features;
    '(_, active_labels) ← _get_active_image_and_labels app mask_idx;
    Ok (training_features, squeeze active_labels)
  else if String.eqb data_choice "Whole Image" then
    let training_features :=
      if use_skimage_features then feature_data_skimage app
      else feature_data_tomotwin app in
    Ok (training_features, squeeze (painting_data app))
  else Raise (ValueError ("Invalid data choice: " ++ data_choice)%string).

(** The arrays [fit_model] hands to the estimator:
    [filtered_features] and [filtered_labels]. *)
Definition training_set (labels : ndarray Z) (features : ndarray R)
  : result (ndarray R * list Z) :=
  let labels := data (flatten labels) in
  F ← shape_last features;
  reshaped_features ← reshape_rows features F;
  let valid_labels := map (fun l => bool_decide (l > 0)%Z) labels in
  filtered_features ← bool_index_rows reshaped_features valid_labels;
  kept ← bool_index labels valid_labels;
  let filtered_labels := map (fun l => (l - 1)%Z) kept in
  Ok (filtered_features, filtered_labels).

(** [weight_dict]: class weights keyed by class. *)
Definition weight_dict (filtered_labels : list Z) : result (gmap Z Q) :=
  let unique_labels := unique filtered_labels in
  class_weights ← Sk.compute_class_weight unique_labels filtered_labels;
  Ok (dict (zip unique_labels class_weights)).

(** The log line of [fit_model] formats [np.unique(labels[:])]; numpy
    refuses [labels[:]] on a 0-d array. *)
Definition log_unique_labels (labels : ndarray Z) : result unit :=
  if decide (shape labels = []) then
    Raise (IndexError "too many indices for array: array is 0-dimensional")
  else Ok tt.

Definition fit_model (labels : ndarray Z) (features : ndarray R)
    (model_type : string) : result (option Classifier) :=
  _ ← log_unique_labels labels;
  '(filtered_features, filtered_labels) ← training_set labels features;
  if decide (length filtered_labels = 0) then Ok None
  else
    weight_dict ← weight_dict filtered_labels;
    let sample_weights := map (fun c => weight_dict !! c) filtered_labels in
    if String.eqb model_type "Random Forest" then
      clf ← rf_fit filtered_features filtered_labels weight_dict;
      Ok (Some clf)
    else if String.eqb model_type "XGBoost" then
      clf ← xgb_fit filtered_features filtered_labels sample_weights;
      Ok (Some clf)
    else Raise (ValueError ("Unsupported model type: " ++ model_type)%string).

(** [skimage.future.predict_segmenter(features, clf)] on 2-d features. *)
Definition predict_segmenter (features : ndarray R) (clf : option Classifier)
  : result (ndarray Z) :=
  match clf with
  | None => Raise (AttributeError "'NoneType' object has no attribute 'predict'")
  | Some clf => reshape (clf_predict clf features) (shape_init features)
  end.

Definition predict (app : App) (features : ndarray R) : result (ndarray Z) :=
  F ← shape_last features;
  X ← reshape_rows features F;
  seg ← predict_segmenter X (model app);
  r ← reshape seg (shape_init features);
  let prediction := add_scalar r 1 in
  Ok (transpose prediction).

Definition on_data_change (app : App) : result App :=
  let data_choice := data_dropdown (widget app) in
  let live_fit := live_fit_checkbox (widget app) in
  let live_prediction := live_pred_checkbox (widget app) in
  let model_type := model_dropdown (widget app) in
  let use_skimage_features := false in
  let use_tomotwin_features := true in
  '(training_features, training_labels) ←
    _get_training_features_and_labels app data_choice use_skimage_features
                                      use_tomotwin_features;
  if np_any (py_eq (py_shape (shape training_labels)) (PyInt 0)) then Ok app
  else if live_fit then
    let app := set_status app "Fitting model ..." in
    Ok (submit app (FitTask training_labels training_features model_type
                            live_prediction use_skimage_features))
  else Ok app.

Definition on_view_change (app : App) : result App :=
  let data_choice := data_dropdown (widget app) in
  if negb (String.eqb data_choice "Whole Image") then on_data_change app
  else Ok app.

(** [bool(self.model)] *)
Definition truthy (m : option Classifier) : bool :=
  match m with Some _ => true | None => false end.

Definition on_model_fit (app : App) (task : result (option Classifier))
    (live_prediction use_skimage_features : bool) : result App :=
  model ← task;
  let app := set_model app model in
  if live_prediction && truthy (model) then
    let prediction_features :=
      if use_skimage_features then feature_data_skimage app
      else feature_data_tomotwin app in
    let app := set_status app "Predicting labels ..." in
    Ok (submit app (PredictTask prediction_features))
  else Ok app.

(** The class-distribution charts redrawn here are display only. *)
Definition on_prediction (app : App) (task : result (ndarray Z)) : result App :=
  prediction ← task;
  let app := set_prediction_layer_data app (transpose prediction) in
  Ok (set_status app "Ready").

(** The executor's worker: run the oldest job, then its callback. *)
Definition pop_task (app : App) : App :=
  {| image_data := image_data app;
     feature_data_skimage := feature_data_skimage app;
     feature_data_tomotwin := feature_data_tomotwin app;
     painting_data := painting_data app;
     prediction_layer_data := prediction_layer_data app;
     current_step := current_step app;
     corner_pixels := corner_pixels app;
     widget := widget app;
     model := model app;
     executor := tail (executor app) |}.

Definition run_task (app : App) : result App :=
  match executor app with
  | [] => Ok app
  | FitTask labels features model_type live_prediction use_skimage_features :: _ =>
      on_model_fit (pop_task app) (fit_model labels features model_type)
                   live_prediction use_skimage_features
  | PredictTask features :: _ =>
      on_prediction (pop_task app) (predict (pop_task app) features)
  end.

End App.


(** ** Background estimation *)

Section Background.

Context {R : Type} `{!Inhabited R}.

(** Floating-point arithmetic and the order statistics of numpy, left
    abstract: [np.median] of a collection, [np.percentile(_, q)], the field
    operations, [np.sqrt] and [<]. *)
Variable Rzero : R.
Variables Radd Rsub Rmul : R -> R -> R.
Variable Rsqrt : R -> R.
Variable Rltb : R -> R -> bool.
Variable np_median : list R -> R.
Variable np_percentile : list R -> nat -> R.

(** [np.sqrt(np.sum((x - median_embedding) ** 2, axis=-1))] for one voxel *)
Definition euclidean (median_embedding x : list R) : R :=
  Rsqrt (foldr Radd Rzero
               (zip_with (fun xi mi => Rmul (Rsub xi mi) (Rsub xi mi)) x median_embedding)).

(** [np.median(embedding_data, axis=(0, 1, 2))], from the voxels' feature
    vectors *)
Definition median_embedding (F : nat) (voxels : list (list R)) : list R :=
  map (fun f => np_median (map (fun x => x !!! f) voxels)) (seq 0 F).

(** [indices[axis][i]] *)
Definition index_at (indices : list (list nat)) (axis i : nat) : result nat :=
  match indices !! axis with
  | Some l => at_ l i
  | None => Raise (IndexError "tuple index out of range")
  end.

(** The loop writing the background class, one voxel at a time. *)
Fixpoint paint_loop (painting : ndarray Z) (indices : list (list nat))
    (range : list nat) : result (ndarray Z) :=
  match range with
  | [] => Ok painting
  | i :: range' =>
      i0 ← index_at indices 0 i;
      i1 ← index_at indices 1 i;
      i2 ← index_at indices 2 i;
      painting' ← setitem painting [i0; i1; i2] 1%Z;
      paint_loop painting' indices range'
  end.

(** The feature store is 4-d, (Z,Y,X,F); other ranks are outside this
    model and reported as an error. *)
Definition _paint_background_thread (app : App (R:=R)) : result (App (R:=R)) :=
  let embedding_data := feature_data_tomotwin app in
  match shape embedding_data with
  | [Zd; Yd; Xd; F] =>
      let voxels := map (row F (data embedding_data)) (seq 0 (Zd * Yd * Xd)) in
      let median_embedding := median_embedding F voxels in
      let distances := NDArray [Zd; Yd; Xd] (map (euclidean median_embedding) voxels) in
      let threshold := np_percentile (data (flatten distances)) 1 in
      let background_mask :=
        NDArray (shape distances) (map (fun d => Rltb d threshold) (data distances)) in
      let indices := where_ background_mask in
      first ← (match indices !! 0 with
               | Some l => Ok l
               | None => Raise (IndexError "tuple index out of range")
               end);
      painting ← paint_loop (painting_data app) indices (seq 0 (length first));
      Ok (set_painting_data app painting)
  | _ => Raise (ValueError "embedding is not 4-d")
  end.

End Background.

(** ** Class distribution charts *)

Section Charts.

Context {R : Type}.

(** [np.unique(l, return_counts=True)] *)
Definition unique_counts (l : list Z) : list Z * list nat :=
  (unique l, map (fun c => length (filter (fun x => x = c) l)) (unique l)).

(** [a[:]] on an array to be flattened by [np.unique]; refused on a 0-d
    array. *)
Definition all_entries {A} (a : ndarray A) : result (list A) :=
  if decide (shape a = []) then
    Raise (IndexError "too many indices for array: array is 0-dimensional")
  else Ok (data a).

(** [np.where(labels == label)] on a 1-d array *)
Definition where_eq (labels : list Z) (label : Z) : list nat :=
  filter (fun i => labels !! i = Some label) (seq 0 (length labels)).

(** [counts[indices]] with an array of positions *)
Definition fancy_index (counts : list nat) (indices : list nat) : result (list nat) :=
  mapM (at_ counts) indices.

(** [counts[np.where(labels == label)][0] if label in labels else 0] *)
Definition aligned_count (labels : list Z) (counts : list nat) (label : Z)
  : result nat :=
  if decide (label ∈ labels) then
    picked ← fancy_index counts (where_eq labels label);
    at_ picked 0
  else Ok 0.

(** What the two bar charts are drawn from. *)
Record Chart : Type := {
  all_labels : list Z;
  aligned_painting_counts : list nat;
  aligned_prediction_counts : list nat
}.

(** The data part of [update_class_distribution_charts]; colours and
    drawing are left out. *)
Definition update_class_distribution_charts (app : App (R:=R)) : result Chart :=
  painting ← all_entries (painting_data app);
  let '(painting_labels, painting_counts) := unique_counts painting in
  prediction ← all_entries (prediction_layer_data app);
  let '(prediction_labels, prediction_counts) := unique_counts prediction in
  let '(prediction_labels, prediction_counts) :=
    if decide (0%Z ∉ prediction_labels)
    then (0%Z :: prediction_labels, 0 :: prediction_counts)
    else (prediction_labels, prediction_counts) in
  let all_labels := unique (painting_labels ++ prediction_labels) in
  aligned_painting_counts ←
    mapM (aligned_count painting_labels painting_counts) all_labels;
  aligned_prediction_counts ←
    mapM (aligned_count prediction_labels prediction_counts) all_labels;
  Ok {| all_labels := all_labels;
        aligned_painting_counts := aligned_painting_counts;
        aligned_prediction_counts := aligned_prediction_counts |}.

End Charts.
(** ** Vocabulary of the statements *)

(** The per-voxel class indices the estimator gives for a feature volume
    read as [N] rows of [F] features. *)
Definition flat_classes {R} (clf : Classifier (R:=R)) (F : nat) (buf : list R)
    (N : nat) : list Z :=
  map (fun x => classes_ clf !!! decision clf x) (map (row F buf) (seq 0 N)).

(** The flat positions of the labelled voxels. *)
Definition kept_voxels (L : list Z) : list nat :=
  filter (fun i => (L !!! i > 0)%Z) (seq 0 (length L)).

(** Number of occurrences of a class. *)
Definition count (c : Z) (y : list Z) : nat := length (filter (fun x => x = c) y).

(** [N_total / (num_classes * count)] *)
Definition balanced (N K cnt : nat) : Q :=
  (Sk.QofN N / (Sk.QofN K * Sk.QofN cnt))%Q.


(** The feature vector of the [r]-th voxel of the masked region. *)
Definition voxel_features {R} `{!Inhabited R} (arr : ndarray R) (mask : list slice)
    (r : nat) : list R :=
  let s := shape_init arr in
  map (fun f => item arr (shift_index s mask (unravel (sliced_shape s mask) r) ++ [f]))
      (seq 0 (default 0 (last (shape arr)))).

(** A feature store as the data model has it: arrays of shape (Z,Y,X,F)
    over one spatial shape, and label arrays of that spatial shape. *)
Record volume_invariant {R} (app : App (R:=R)) (s : list nat) (F1 F2 : nat) : Prop := {
  inv_rank : length s = 3;
  inv_image : shape (image_data app) = s;
  inv_skimage_shape : shape (feature_data_skimage app) = s ++ [F1];
  inv_skimage_wf : wf (feature_data_skimage app);
  inv_skimage_dim : F1 ≠ 0;
  inv_tomotwin_shape : shape (feature_data_tomotwin app) = s ++ [F2];
  inv_tomotwin_wf : wf (feature_data_tomotwin app);
  inv_tomotwin_dim : F2 ≠ 0;
  inv_painting_shape : shape (painting_data app) = s;
  inv_painting_wf : wf (painting_data app)
}.

(** Writing the background class at a list of voxels, in order. *)
Fixpoint paint_all (painting : ndarray Z) (hits : list (list nat)) : result (ndarray Z) :=
  match hits with
  | [] => Ok painting
  | idx :: hits' => painting' ← setitem painting idx 1%Z; paint_all painting' hits'
  end.

Section BackgroundVocabulary.

Context {R : Type} `{!Inhabited R}.
Variable Rzero : R.
Variables Radd Rsub Rmul : R -> R -> R.
Variable Rsqrt : R -> R.
Variable Rltb : R -> R -> bool.
Variable np_median : list R -> R.
Variable np_percentile : list R -> nat -> R.

(** The feature vectors of all voxels of the embedding, in C order. *)
Definition voxel_vectors (app : App (R:=R)) : list (list R) :=
  let e := feature_data_tomotwin app in
  map (row (default 0 (last (shape e))) (data e)) (seq 0 (size_of (shape_init e))).

(** The per-feature median vector over the whole volume. *)
Definition median_vector (app : App (R:=R)) : list R :=
  median_embedding np_median (default 0 (last (shape (feature_data_tomotwin app))))
                   (voxel_vectors app).

(** The Euclidean distance from the median vector of the voxel at [idx]. *)
Definition voxel_distance (app : App (R:=R)) (idx : list nat) : R :=
  let e := feature_data_tomotwin app in
  euclidean Rzero Radd Rsub Rmul Rsqrt (median_vector app)
            (row (default 0 (last (shape e))) (data e) (ravel (shape_init e) idx)).

(** The first percentile of the distances of all voxels. *)
Definition distance_threshold (app : App (R:=R)) : R :=
  np_percentile
    (map (euclidean Rzero Radd Rsub Rmul Rsqrt (median_vector app)) (voxel_vectors app)) 1.

End BackgroundVocabulary.

(** ** Concrete inputs *)

Module Examples.

(** A one-split tree on the first feature: samples above the threshold
    get the last class, the others the first. *)
Definition stump_position (n : nat) (x : list Z) : nat :=
  if bool_decide (5 < default 0 (head x))%Z then n else 0.

Definition stump_position_lt (n : nat) (x : list Z) : stump_position n x < S n :=
  match bool_decide (5 < default 0 (head x))%Z as b
        return (if b then n else 0) < S n with
  | true => Nat.lt_succ_diag_r n
  | false => Nat.lt_0_succ n
  end.

Definition stump (c : Z) (cs : list Z) : Classifier (R:=Z) :=
  {| classes_ := c :: cs;
     decision := stump_position (length cs);
     decision_lt := stump_position_lt (length cs) |}.

(** A training procedure in the manner of a forest: the classes are the
    distinct labels seen. *)
Definition rf_stump (X : ndarray Z) (y : list Z) (w : gmap Z Q)
  : result (Classifier (R:=Z)) :=
  match unique y with
  | [] => Raise (ValueError "Found array with 0 sample(s)")
  | c :: cs => Ok (stump c cs)
  end.

(** A training procedure in the manner of XGBoost: the classes have to be
    0 .. K-1. *)
Definition xgb_stump (X : ndarray Z) (y : list Z) (w : list (option Q))
  : result (Classifier (R:=Z)) :=
  match unique y with
  | [] => Raise (ValueError "Found array with 0 sample(s)")
  | c :: cs =>
      if decide (c :: cs = map Z.of_nat (seq 0 (S (length cs)))) then Ok (stump c cs)
      else Raise (ValueError "Invalid classes inferred from unique values of y")
  end.

(** The widget as [initUI] leaves it. *)
Definition widget0 : Widget :=
  {| model_dropdown := "Random Forest";
     data_dropdown := "Whole Image";
     live_fit_checkbox := true;
     live_pred_checkbox := true;
     status := "Ready" |}.

(** A 1 x 2 x 2 volume with one skimage feature and two tomotwin features
    per voxel; labels 1 and 3 are painted, label 2 is not. *)
Definition app0 : App (R:=Z) :=
  {| image_data := NDArray [1; 2; 2] [7; 8; 9; 10]%Z;
     feature_data_skimage := NDArray [1; 2; 2; 1] [1; 2; 3; 4]%Z;
     feature_data_tomotwin := NDArray [1; 2; 2; 2] [0; 1; 10; 11; 2; 3; 12; 13]%Z;
     painting_data := NDArray [1; 2; 2] [1; 3; 0; 0]%Z;
     prediction_layer_data := NDArray [1; 2; 2] [0; 0; 0; 0]%Z;
     current_step := [0; 0; 0];
     corner_pixels := ([0; 0; 0], [0; 2; 2]);
     widget := widget0;
     model := None;
     executor := [] |}.

(** The same volume once a model is there and every label has been
    erased again. *)
Definition app_erased : App (R:=Z) :=
  set_model (set_painting_data app0 (NDArray [1; 2; 2] [0; 0; 0; 0]%Z))
            (Some (stump 0 [2]%Z)).

(** The same volume looked at in "Current Displayed Region" mode while
    the displayed rectangle is empty along the second axis. *)
Definition app_empty_view : App (R:=Z) :=
  {| image_data := image_data app0;
     feature_data_skimage := feature_data_skimage app0;
     feature_data_tomotwin := feature_data_tomotwin app0;
     painting_data := painting_data app0;
     prediction_layer_data := prediction_layer_data app0;
     current_step := [0; 0; 0];
     corner_pixels := ([0; 0; 0], [0; 0; 2]);
     widget := {| model_dropdown := "Random Forest";
                  data_dropdown := "Current Displayed Region";
                  live_fit_checkbox := true;
                  live_pred_checkbox := true;
                  status := "Ready" |};
     model := None;
     executor := [] |}.

(** The scenario of the specification: a 4 x 10 x 10 volume with feature
    sets of 8 and 32 features. *)
Definition app_scenario : App (R:=Z) :=
  {| image_data := NDArray [4; 10; 10] (replicate 400 0%Z);
     feature_data_skimage := NDArray [4; 10; 10; 8] (replicate 3200 0%Z);
     feature_data_tomotwin := NDArray [4; 10; 10; 32] (replicate 12800 0%Z);
     painting_data := NDArray [4; 10; 10] (replicate 400 0%Z);
     prediction_layer_data := NDArray [4; 10; 10] (replicate 400 0%Z);
     current_step := [0; 0; 0];
     corner_pixels := ([0; 0; 0], [0; 10; 10]);
     widget := widget0;
     model := None;
     executor := [] |}.

(** Integer stand-ins for the order statistics: the upper median and the
    lower nearest-rank percentile. *)
Definition z_median (l : list Z) : Z :=
  default 0%Z (merge_sort Z.le l !! (length l / 2)).


End Examples.


(** ** Vocabulary of the further properties *)

(** The jobs still to come from a queue: a fit job may be followed by a
    predict job. *)
Definition pending_work {R} (queue : list (Task (R:=R))) : nat :=
  sum_list (map (fun t => match t with FitTask _ _ _ _ _ => 2 | PredictTask _ => 1 end)
                queue).

Section CycleVocabulary.

Context {R : Type} `{!Inhabited R}.
Variable rf_fit : ndarray R -> list Z -> gmap Z Q -> result (Classifier (R:=R)).
Variable xgb_fit : ndarray R -> list Z -> list (option Q) -> result (Classifier (R:=R)).
Implicit Types (app : App (R:=R)).

(** One move of the fit / predict cycle: an event handler or the worker. *)
Definition cycle_step app app' : Prop :=
  on_data_change app = Ok app' \/ on_view_change app = Ok app' \/
  run_task rf_fit xgb_fit app = Ok app'.

(** The arrays the cycle only reads. *)
Definition same_store app app' : Prop :=
  image_data app' = image_data app /\
  feature_data_skimage app' = feature_data_skimage app /\
  feature_data_tomotwin app' = feature_data_tomotwin app /\
  painting_data app' = painting_data app.

End CycleVocabulary.

(** ** Further concrete inputs *)

Module MoreExamples.

Import Examples.

(** [app_erased] once its paint event has been handled: the fit job is
    queued. *)
Definition app_fitting : App (R:=Z) :=
  submit (set_status app_erased "Fitting model ...")
         (FitTask (squeeze (painting_data app_erased)) (feature_data_tomotwin app_erased)
                  "Random Forest" true false).

(** A fixed distance threshold, in place of the percentile. *)
Definition z_threshold (l : list Z) (q : nat) : Z := 5%Z.

(** [app0] after the background estimation with the integer stand-ins
    and the fixed threshold: the second and the fourth voxel are within
    the threshold of the median vector. *)
Definition app0_background : App (R:=Z) :=
  set_painting_data app0 (NDArray [1; 2; 2] [1; 1; 0; 1]%Z).

End MoreExamples.
(** * Properties *)

(** ** Index arithmetic of C-ordered arrays *)

Section Indexing.

Lemma size_of_app s t : size_of (s ++ t) = size_of s * size_of t.
Proof.
  induction s as [|n s IH]; simpl; [lia|]. rewrite IH. lia.
Qed.

Lemma size_of_reverse s : size_of (reverse s) = size_of s.
Proof.
  induction s as [|n s IH]; [done|].
  rewrite reverse_cons, size_of_app, IH. simpl. lia.
Qed.

Lemma length_unravel s k : length (unravel s k) = length s.
Proof.
  revert k. induction s as [|n s IH]; intros k; simpl; [done|]. by rewrite IH.
Qed.

Lemma unravel_in_bounds s k : k < size_of s -> in_bounds (unravel s k) s.
Proof.
  revert k. induction s as [|n s IH]; intros k Hk; simpl in *.
  { constructor. }
  assert (size_of s ≠ 0) by (intros E; rewrite E in Hk; lia).
  constructor.
  - apply Nat.Div0.div_lt_upper_bound. lia.
  - apply IH. by apply Nat.mod_upper_bound.
Qed.

Lemma ravel_unravel s k : k < size_of s -> ravel s (unravel s k) = k.
Proof.
  revert k. induction s as [|n s IH]; intros k Hk; simpl in *; [lia|].
  assert (size_of s ≠ 0) by (intros E; rewrite E in Hk; lia).
  rewrite IH by (by apply Nat.mod_upper_bound).
  pose proof (Nat.div_mod_eq k (size_of s)). lia.
Qed.

Lemma ravel_lt s idx : in_bounds idx s -> ravel s idx < size_of s.
Proof.
  intros H. induction H as [|i n idx s Hi _ IH]; simpl; [lia|]. nia.
Qed.

Lemma unravel_ravel s idx : in_bounds idx s -> unravel s (ravel s idx) = idx.
Proof.
  intros H. induction H as [|i n idx s Hi Hb IH]; simpl; [done|].
  pose proof (ravel_lt _ _ Hb) as Hlt.
  replace (i * size_of s + ravel s idx) with (ravel s idx + i * size_of s) by lia.
  rewrite Nat.div_add by lia.
  rewrite Nat.Div0.mod_add, Nat.div_small, Nat.mod_small by done.
  by rewrite IH.
Qed.

Lemma in_bounds_reverse idx s : in_bounds idx s -> in_bounds (reverse idx) (reverse s).
Proof. apply Forall2_reverse. Qed.

Lemma in_bounds_length idx s : in_bounds idx s -> length idx = length s.
Proof. apply Forall2_length. Qed.

Lemma in_bounds_size_pos idx s : in_bounds idx s -> 0 < size_of s.
Proof. intros H. pose proof (ravel_lt _ _ H). lia. Qed.

End Indexing.

(** ** Transposition *)

Section Transpose.

Context {A : Type} `{!Inhabited A}.

Lemma transpose_shape (a : ndarray A) : shape (transpose a) = reverse (shape a).
Proof. done. Qed.

Lemma transpose_wf (a : ndarray A) : wf (transpose a).
Proof. unfold wf, transpose. simpl. by rewrite length_map, length_seq. Qed.


(** Reversing the axes twice gives the array back. *)
Lemma transpose_involutive (a : ndarray A) : wf a -> transpose (transpose a) = a.
Proof.
  intros Hwf. destruct a as [s d]. unfold wf in Hwf. simpl in Hwf.
  unfold transpose. simpl. rewrite reverse_involutive. f_equal.
  apply list_eq. intros k.
  rewrite list_lookup_fmap.
  destruct (decide (k < size_of s)) as [Hk|Hk].
  - rewrite lookup_seq_lt by done. simpl.
    pose proof (unravel_in_bounds _ _ Hk) as Hb.
    pose proof (in_bounds_reverse _ _ Hb) as Hr.
    pose proof (ravel_lt _ _ Hr) as Hlt.
    rewrite size_of_reverse in Hlt |- *.
    rewrite list_lookup_total_alt, list_lookup_fmap, lookup_seq_lt by done.
    simpl. rewrite unravel_ravel, reverse_involutive, ravel_unravel by done.
    rewrite list_lookup_total_alt.
    destruct (d !! k) eqn:E; [done|].
    apply lookup_ge_None in E. lia.
  - rewrite lookup_seq_ge by lia. simpl. symmetry.
    apply lookup_ge_None. lia.
Qed.

End Transpose.

(** ** The predictor *)

Section Predict.

Context {R : Type} `{!Inhabited R}.
Implicit Types (app : App (R:=R)) (clf : Classifier (R:=R)) (features : ndarray R).

Lemma shape_last_snoc features s F :
  shape features = s ++ [F] -> shape_last features = Ok F.
Proof. intros E. unfold shape_last. by rewrite E, last_snoc. Qed.

Lemma shape_init_snoc features s F :
  shape features = s ++ [F] -> shape_init features = s.
Proof. intros E. unfold shape_init. by rewrite E, removelast_last. Qed.

Lemma reshape_rows_ok features s F :
  wf features -> shape features = s ++ [F] -> F ≠ 0 ->
  reshape_rows features F = Ok (NDArray [size_of s; F] (data features)).
Proof.
  intros Hwf E HF. unfold wf in Hwf. rewrite E, size_of_app in Hwf.
  simpl in Hwf. rewrite Nat.mul_1_r in Hwf.
  unfold reshape_rows. rewrite decide_False by done.
  rewrite Hwf, Nat.Div0.mod_mul, decide_True by done.
  by rewrite Nat.div_mul.
Qed.

(** What [predict] returns on a well-formed feature volume. *)
Lemma predict_ok app clf features s F :
  model app = Some clf ->
  wf features -> shape features = s ++ [F] -> F ≠ 0 ->
  predict app features =
    Ok (transpose
          (NDArray s (map (fun v => (v + 1)%Z)
                          (flat_classes clf F (data features) (size_of s))))).
Proof.
  intros Hm Hwf E HF. unfold predict.
  rewrite (shape_last_snoc _ _ _ E). simpl.
  rewrite (reshape_rows_ok _ _ _ Hwf E HF). simpl.
  rewrite Hm. unfold predict_segmenter, clf_predict, rows, reshape. simpl.
  rewrite !length_map, length_seq.
  rewrite decide_True by lia. simpl.
  rewrite (shape_init_snoc _ _ _ E).
  rewrite !length_map, length_seq.
  rewrite decide_True by done. simpl.
  done.
Qed.

Lemma predict_no_model app features :
  model app = None ->
  (exists e, predict app features = Raise e).
Proof.
  intros Hm. unfold predict.
  destruct (shape_last features) as [F|e]; simpl; [|by eauto].
  destruct (reshape_rows features F) as [X|e]; simpl; [|by eauto].
  rewrite Hm. simpl. eauto.
Qed.


End Predict.

(** ** Filtering, classes and class weights *)

Section FitLemmas.

Lemma filter_fmap_list {A B} (f : A -> B) (P : B -> Prop) `{!forall x, Decision (P x)}
    (l : list A) :
  filter P (f <$> l) = f <$> filter (fun x => P (f x)) l.
Proof.
  induction l as [|x l IH]; [done|].
  rewrite fmap_cons, !filter_cons, IH. by destruct (decide (P (f x))).
Qed.

Lemma compress_map {A B} `{!Inhabited A, !Inhabited B}
    (f : A -> bool) (l : list A) (xs : list B) :
  length l = length xs ->
  compress (map f l) xs =
    map (fun i => xs !!! i) (filter (fun i => f (l !!! i) = true) (seq 0 (length l))).
Proof.
  revert xs. induction l as [|a l IH]; intros [|x xs] Hlen; simplify_eq/=; [done|].
  rewrite <- fmap_S_seq, filter_cons.
  rewrite (filter_fmap_list S).
  rewrite (IH xs) by done.
  change ((a :: l) !!! 0) with a.
  destruct (f a) eqn:E; simpl; [f_equal|];
    rewrite <- list_fmap_compose; done.
Qed.

Lemma compress_map_filter {A} (P : A -> Prop) `{!forall x, Decision (P x)} (l : list A) :
  compress (map (fun x => bool_decide (P x)) l) l = filter P l.
Proof.
  induction l as [|a l IH]; [done|]. simpl. rewrite filter_cons, IH.
  by destruct (decide (P a)); [rewrite bool_decide_true|rewrite bool_decide_false].
Qed.

Lemma length_compress_le {A} (valid : list bool) (l : list A) :
  length (compress valid l) <= length l.
Proof.
  revert l. induction valid as [|b v IH]; intros [|x l]; simpl; try lia.
  destruct b; simpl; specialize (IH l); lia.
Qed.


(** [np.unique] *)

Lemma elem_of_insert_sorted x y l : y ∈ insert_sorted x l <-> y = x \/ y ∈ l.
Proof.
  induction l as [|z l IH]; simpl.
  - set_solver.
  - destruct (Z.ltb_spec x z); [set_solver|].
    destruct (Z.eqb_spec x z); [set_solver|].
    rewrite elem_of_cons, IH. set_solver.
Qed.

Lemma elem_of_unique x l : x ∈ unique l <-> x ∈ l.
Proof.
  induction l as [|y l IH]; simpl; [done|].
  rewrite elem_of_insert_sorted, IH. set_solver.
Qed.

Lemma insert_sorted_sorted x l :
  StronglySorted Z.lt l -> StronglySorted Z.lt (insert_sorted x l).
Proof.
  induction 1 as [|z l Hs IH Hall]; simpl.
  - repeat constructor.
  - destruct (Z.ltb_spec x z).
    + constructor; [by constructor|].
      constructor; [done|]. eapply Forall_impl; [exact Hall|]. simpl. lia.
    + destruct (Z.eqb_spec x z); [by constructor|].
      constructor; [done|].
      apply Forall_forall. intros y Hy.
      apply elem_of_insert_sorted in Hy as [->|Hy]; [lia|].
      by eapply Forall_forall in Hall.
Qed.

Lemma unique_sorted l : StronglySorted Z.lt (unique l).
Proof.
  induction l as [|y l IH]; simpl; [constructor|]. by apply insert_sorted_sorted.
Qed.

Lemma sorted_NoDup l : StronglySorted Z.lt l -> NoDup l.
Proof.
  induction 1 as [|z l Hs IH Hall]; constructor; [|done].
  intros Hin. eapply Forall_forall in Hall; [|done]. lia.
Qed.

Lemma unique_nil l : unique l = [] -> l = [].
Proof.
  destruct l as [|x l]; [done|]. intros E.
  assert (x ∈ unique (x :: l)) as Hx by (apply elem_of_unique; set_solver).
  rewrite E in Hx. by apply elem_of_nil in Hx.
Qed.

Lemma length_filter_none {A} (P : A -> Prop) `{!forall x, Decision (P x)} (l : list A) :
  Forall (fun x => ~ P x) l -> length (filter P l) = 0.
Proof.
  induction 1 as [|x l Hx _ IH]; [done|]. by rewrite filter_cons_False.
Qed.

(** [searchsorted] on the sorted classes is the position of the class. *)
Lemma searchsorted_lookup u i c :
  StronglySorted Z.lt u -> u !! i = Some c -> Sk.searchsorted u c = i.
Proof.
  intros Hs. revert i. induction Hs as [|z l Hs IH Hall]; intros i Hi; [done|].
  unfold Sk.searchsorted in *. rewrite filter_cons.
  destruct i as [|i]; simplify_eq/=.
  - rewrite decide_False by lia.
    apply length_filter_none. eapply Forall_impl; [exact Hall|]. simpl. lia.
  - assert (z < c)%Z.
    { eapply Forall_forall in Hall; [exact Hall|]. by eapply list_elem_of_lookup_2. }
    rewrite decide_True by done. simpl. f_equal. by apply IH.
Qed.

Lemma searchsorted_unique_lt y x :
  x ∈ y -> Sk.searchsorted (unique y) x < length (unique y).
Proof.
  intros Hx. apply elem_of_unique, list_elem_of_lookup in Hx as [i Hi].
  rewrite (searchsorted_lookup _ _ _ (unique_sorted y) Hi).
  by eapply lookup_lt_Some.
Qed.

Lemma bincount_lookup l i :
  l ≠ [] -> i <= max_list l ->
  bincount l !! i = Some (length (filter (fun j => j = i) l)).
Proof.
  intros Hl Hi. unfold bincount. destruct l as [|x l]; [done|].
  rewrite list_lookup_fmap, lookup_seq_lt by lia. done.
Qed.

Lemma length_bincount l : l ≠ [] -> length (bincount l) = S (max_list l).
Proof.
  intros Hl. unfold bincount. destruct l as [|x l]; [done|].
  by rewrite length_map, length_seq.
Qed.

(** The encoded labels use every position of the classes. *)
Lemma max_encoded y :
  y ≠ [] ->
  S (max_list (map (Sk.searchsorted (unique y)) y)) = length (unique y).
Proof.
  intros Hy. set (u := unique y). set (ind := map (Sk.searchsorted u) y).
  assert (ind ≠ []) as Hind by (subst ind; by destruct y).
  assert (max_list ind < length u) as Hub.
  { pose proof (max_list_elem_of ind Hind) as Hm.
    apply list_elem_of_fmap in Hm as (x & -> & Hx).
    by apply searchsorted_unique_lt. }
  assert (length u ≠ 0) as Hu.
  { intros E. apply length_zero_iff_nil in E. by apply unique_nil in E. }
  assert (length u - 1 <= max_list ind); [|lia].
  destruct (lookup_lt_is_Some_2 u (length u - 1)) as [c Hc]; [lia|].
  apply max_list_elem_of_le.
  rewrite <- (searchsorted_lookup u _ c (unique_sorted y) Hc).
  apply list_elem_of_fmap. exists c. split; [done|].
  apply elem_of_unique. by eapply list_elem_of_lookup_2.
Qed.

Lemma count_encoded u y i c :
  StronglySorted Z.lt u -> Forall (fun x => x ∈ u) y -> u !! i = Some c ->
  length (filter (fun j => j = i) (map (Sk.searchsorted u) y)) = count c y.
Proof.
  intros Hs Hy Hi. unfold count. induction Hy as [|x y Hx _ IH]; [done|].
  apply list_elem_of_lookup in Hx as [j Hj].
  simpl. rewrite !filter_cons, (searchsorted_lookup _ _ _ Hs Hj).
  destruct (decide (j = i)) as [->|Hne].
  - rewrite decide_True by congruence. simpl. by rewrite IH.
  - rewrite decide_False; [done|]. intros ->.
    apply Hne. eapply NoDup_lookup; eauto using sorted_NoDup.
Qed.

Lemma count_pos c y : c ∈ y -> 0 < count c y.
Proof.
  intros Hc. unfold count.
  assert (c ∈ filter (fun x => x = c) y) as Hin by (by apply list_elem_of_filter).
  destruct (filter _ y); [by apply elem_of_nil in Hin|simpl; lia].
Qed.

Lemma compute_class_weight_ok y :
  y ≠ [] ->
  Sk.compute_class_weight (unique y) y =
    Ok (map (fun c => balanced (length y) (length (unique y)) (count c y)) (unique y)).
Proof.
  intros Hy. unfold Sk.compute_class_weight.
  rewrite decide_True by (by apply Forall_forall).
  f_equal. apply list_eq. intros i. rewrite !list_lookup_fmap.
  destruct (unique y !! i) as [c|] eqn:Hi; simpl; [|done].
  f_equal. rewrite (searchsorted_lookup _ _ _ (unique_sorted y) Hi).
  pose proof (lookup_lt_Some _ _ _ Hi) as Hlt.
  assert (map (Sk.searchsorted (unique y)) y ≠ []) as Hind by (by destruct y).
  rewrite list_lookup_total_alt, list_lookup_fmap.
  rewrite bincount_lookup; [|done|pose proof (max_encoded y Hy); lia].
  simpl. unfold balanced. do 3 f_equal.
  apply count_encoded; [apply unique_sorted| |done].
  apply Forall_forall. intros x Hx. by apply elem_of_unique.
Qed.

(** [dict] *)
Lemma dict_foldl_notin {V} (pairs : list (Z * V)) (m : gmap Z V) c :
  c ∉ pairs.*1 ->
  foldl (fun m kv => <[kv.1 := kv.2]> m) m pairs !! c = m !! c.
Proof.
  revert m. induction pairs as [|[k v] ps IH]; intros m Hc; [done|].
  simpl in *. apply not_elem_of_cons in Hc as [Hk Hps].
  rewrite IH by done. by rewrite lookup_insert_ne.
Qed.

Lemma dict_lookup {V} (pairs : list (Z * V)) c w :
  NoDup pairs.*1 -> (c, w) ∈ pairs -> dict pairs !! c = Some w.
Proof.
  unfold dict. generalize (∅ : gmap Z V).
  induction pairs as [|[k v] ps IH]; intros m Hnd Hin.
  { by apply elem_of_nil in Hin. }
  simpl in *. apply NoDup_cons in Hnd as [Hk Hnd].
  apply elem_of_cons in Hin as [Heq|Hin].
  - simplify_eq. rewrite dict_foldl_notin by done. by rewrite lookup_insert_eq.
  - by apply IH.
Qed.

Lemma dict_lookup_None {V} (pairs : list (Z * V)) c :
  c ∉ pairs.*1 -> dict pairs !! c = None.
Proof. intros Hc. unfold dict. by rewrite dict_foldl_notin. Qed.






Lemma weight_dict_ok (y : list Z) :
  y ≠ [] ->
  weight_dict y =
    Ok (dict (zip (unique y)
                  (map (fun c => balanced (length y) (length (unique y)) (count c y))
                       (unique y)))).
Proof.
  intros Hy. unfold weight_dict. by rewrite compute_class_weight_ok.
Qed.

Lemma weight_dict_lookup (y : list Z) d c :
  y ≠ [] -> weight_dict y = Ok d -> c ∈ y ->
  d !! c = Some (balanced (length y) (length (unique y)) (count c y)).
Proof.
  intros Hy Hd Hc. rewrite weight_dict_ok in Hd by done. simplify_eq.
  apply dict_lookup.
  - rewrite fst_zip by (by rewrite length_map). apply sorted_NoDup, unique_sorted.
  - apply elem_of_unique, list_elem_of_lookup in Hc as [i Hi].
    apply list_elem_of_lookup. exists i.
    apply lookup_zip_with_Some. eexists _, _. split; [reflexivity|].
    split; [exact Hi|]. by rewrite list_lookup_fmap, Hi.
Qed.


End FitLemmas.

(** ** Rows of a buffer *)

Section Rows.
Context {A : Type}.

Lemma length_row_le (F : nat) (buf : list A) r : length (row F buf r) <= F.
Proof. unfold row. rewrite length_take. lia. Qed.

Lemma length_row (F : nat) (buf : list A) r :
  (r + 1) * F <= length buf -> length (row F buf r) = F.
Proof. intros H. unfold row. rewrite length_take, length_drop. lia. Qed.

Lemma row_concat (F : nat) (ls : list (list A)) r l :
  Forall (fun l => length l = F) ls -> ls !! r = Some l ->
  row F (concat ls) r = l.
Proof.
  intros Hall. revert r. induction Hall as [|x ls Hx _ IH]; intros r Hr; [done|].
  unfold row in *. destruct r as [|r]; simpl in Hr.
  - injection Hr as ->. rewrite <- Hx. simpl. by rewrite drop_0, take_app_length.
  - rewrite <- (IH r Hr). simpl.
    replace (F + r * F) with (length x + r * F) by lia.
    by rewrite drop_app_add.
Qed.

Lemma rows_concat (F : nat) (ls : list (list A)) :
  Forall (fun l => length l = F) ls ->
  rows (NDArray [length ls; F] (concat ls)) = ls.
Proof.
  intros Hall. unfold rows. simpl. apply list_eq. intros r.
  rewrite list_lookup_fmap.
  destruct (ls !! r) as [l|] eqn:E.
  - rewrite lookup_seq_lt by (by eapply lookup_lt_Some). simpl.
    f_equal. by apply row_concat.
  - rewrite lookup_seq_ge; [done|]. by apply lookup_ge_None.
Qed.

End Rows.

Section Compress.

Lemma compress_decide {A B} `{!Inhabited A, !Inhabited B}
    (P : A -> Prop) `{!forall x, Decision (P x)} (l : list A) (xs : list B) :
  length l = length xs ->
  compress (map (fun x => bool_decide (P x)) l) xs =
    map (fun i => xs !!! i) (filter (fun i => P (l !!! i)) (seq 0 (length l))).
Proof.
  intros Hlen. rewrite compress_map by done. f_equal.
  apply list_filter_iff. intros i. apply bool_decide_eq_true.
Qed.

End Compress.

Section Fit.

Context {R : Type} `{!Inhabited R}.
Variable rf_fit : ndarray R -> list Z -> gmap Z Q -> result (Classifier (R:=R)).
Variable xgb_fit : ndarray R -> list Z -> list (option Q) -> result (Classifier (R:=R)).

Lemma elem_of_kept_voxels L i :
  i ∈ kept_voxels L <-> i < length L /\ (L !!! i > 0)%Z.
Proof.
  unfold kept_voxels. rewrite list_elem_of_filter, elem_of_seq. lia.
Qed.

Lemma kept_voxels_nil L :
  Forall (fun l => (l <= 0)%Z) L -> kept_voxels L = [].
Proof.
  intros H. destruct (kept_voxels L) as [|i k] eqn:E; [done|].
  assert (i ∈ kept_voxels L) as Hi by (rewrite E; set_solver).
  apply elem_of_kept_voxels in Hi as [Hlt Hpos].
  eapply Forall_forall in H; [|by apply list_elem_of_lookup_total_2].
  lia.
Qed.

Lemma training_set_ok (labels : ndarray Z) (features : ndarray R) s F :
  wf features -> shape features = s ++ [F] -> F ≠ 0 ->
  length (data labels) = size_of s ->
  let keep := kept_voxels (data labels) in
  training_set labels features =
    Ok (NDArray [length keep; F] (concat (map (row F (data features)) keep)),
        map (fun i => (data labels !!! i - 1)%Z) keep).
Proof.
  intros Hwf E HF Hlen keep. unfold training_set. simpl.
  rewrite (shape_last_snoc _ _ _ E). simpl.
  rewrite (reshape_rows_ok _ _ _ Hwf E HF). simpl.
  unfold bool_index_rows, rows. simpl.
  rewrite length_map, decide_True by done. simpl.
  unfold bool_index. rewrite length_map, decide_True by done. simpl.
  rewrite !compress_decide by (by rewrite ?length_map, ?length_seq).
  fold (kept_voxels (data labels)). fold keep.
  assert (map (fun i => map (row F (data features)) (seq 0 (size_of s)) !!! i) keep
          = map (row F (data features)) keep) as ->.
  { apply Forall_fmap_ext, Forall_forall. intros i Hi.
    apply elem_of_kept_voxels in Hi as [Hi _].
    rewrite list_lookup_total_alt, list_lookup_fmap, lookup_seq_lt by lia. done. }
  rewrite length_map, <- list_fmap_compose. done.
Qed.


Lemma fit_model_unfold (labels : ndarray Z) (features : ndarray R) X y model_type :
  shape labels ≠ [] ->
  training_set labels features = Ok (X, y) ->
  fit_model rf_fit xgb_fit labels features model_type =
    if decide (length y = 0) then Ok None
    else
      d ← weight_dict y;
      if String.eqb model_type "Random Forest" then
        clf ← rf_fit X y d; Ok (Some clf)
      else if String.eqb model_type "XGBoost" then
        clf ← xgb_fit X y (map (fun c => d !! c) y); Ok (Some clf)
      else Raise (ValueError ("Unsupported model type: " ++ model_type)%string).
Proof.
  intros Hnd E. unfold fit_model, log_unique_labels.
  rewrite decide_False by done. cbn [mbind result_bind]. by rewrite E.
Qed.

(** On labels without a positive entry [fit_model] returns [None]. *)
Lemma fit_model_skip (labels : ndarray Z) (features : ndarray R) s F model_type :
  shape labels ≠ [] ->
  wf features -> shape features = s ++ [F] -> F ≠ 0 ->
  length (data labels) = size_of s ->
  Forall (fun l => (l <= 0)%Z) (data labels) ->
  fit_model rf_fit xgb_fit labels features model_type = Ok None.
Proof.
  intros Hnd Hwf E HF Hlen Hall.
  rewrite (fit_model_unfold _ _ _ _ _ Hnd (training_set_ok _ _ _ _ Hwf E HF Hlen)).
  rewrite kept_voxels_nil by done. done.
Qed.

(** C3: the samples handed to the estimator are exactly the voxels with a
    positive label, in order, each with its label minus one; no voxel with
    label 0 is among them. *)
Theorem C3_training_set_is_labelled_voxels
    (labels : ndarray Z) (features : ndarray R) s F :
  shape labels ≠ [] ->
  wf features -> shape features = s ++ [F] -> F ≠ 0 ->
  length (data labels) = size_of s ->
  let L := data labels in
  let keep := kept_voxels L in
  (forall i, i ∈ keep <-> i < length L /\ (L !!! i > 0)%Z) /\
  exists X y,
    training_set labels features = Ok (X, y) /\
    shape X = [length keep; F] /\
    rows X = map (row F (data features)) keep /\
    y = map (fun i => (L !!! i - 1)%Z) keep /\
    Forall (fun c => (0 <= c)%Z) y /\
    (y = [] -> forall model_type,
       fit_model rf_fit xgb_fit labels features model_type = Ok None) /\
    (y ≠ [] -> exists d,
       weight_dict y = Ok d /\
       fit_model rf_fit xgb_fit labels features "Random Forest" =
         (clf ← rf_fit X y d; Ok (Some clf)) /\
       fit_model rf_fit xgb_fit labels features "XGBoost" =
         (clf ← xgb_fit X y (map (fun c => d !! c) y); Ok (Some clf))).
Proof.
  intros Hnd Hwf E HF Hlen L keep.
  split; [apply elem_of_kept_voxels|].
  pose proof (training_set_ok _ _ _ _ Hwf E HF Hlen) as Hts.
  simpl in Hts. fold L keep in Hts.
  eexists _, _. split; [exact Hts|].
  split; [done|]. split.
  { rewrite <- (length_map (row F (data features)) keep).
    apply rows_concat, Forall_forall. intros r Hr.
    apply list_elem_of_fmap in Hr as (i & -> & Hi).
    apply elem_of_kept_voxels in Hi as [Hi _].
    apply length_row. unfold wf in Hwf. rewrite E, size_of_app in Hwf.
    simpl in Hwf. subst L. nia. }
  split; [done|]. split.
  { apply Forall_forall. intros c Hc.
    apply list_elem_of_fmap in Hc as (i & -> & Hi).
    apply elem_of_kept_voxels in Hi. lia. }
  split.
  - intros Hy mt. rewrite (fit_model_unfold _ _ _ _ _ Hnd Hts), Hy. done.
  - intros Hy. eexists. split; [by apply weight_dict_ok|].
    split.
    + rewrite (fit_model_unfold _ _ _ _ _ Hnd Hts).
      rewrite decide_False by (by intros E0%length_zero_iff_nil).
      by rewrite weight_dict_ok.
    + rewrite (fit_model_unfold _ _ _ _ _ Hnd Hts).
      rewrite decide_False by (by intros E0%length_zero_iff_nil).
      by rewrite weight_dict_ok.
Qed.

End Fit.

(** ** Claims about the predictor *)

Section PredictClaims.

Context {R : Type} `{!Inhabited R}.
Implicit Types (app : App (R:=R)) (clf : Classifier (R:=R)) (features : ndarray R).



Lemma length_flat_classes clf F buf N : length (flat_classes clf F buf N) = N.
Proof. unfold flat_classes. by rewrite !length_map, length_seq. Qed.






End PredictClaims.

(** ** Models returned by [fit_model] *)

Section FittedModels.

Context {R : Type} `{!Inhabited R}.
Variable rf_fit : ndarray R -> list Z -> gmap Z Q -> result (Classifier (R:=R)).
Variable xgb_fit : ndarray R -> list Z -> list (option Q) -> result (Classifier (R:=R)).

(** Both estimators record the distinct training labels as [classes_]. *)
Hypothesis rf_fit_classes :
  forall X y w clf, rf_fit X y w = Ok clf -> classes_ clf = unique y.
Hypothesis xgb_fit_classes :
  forall X y w clf, xgb_fit X y w = Ok clf -> classes_ clf = unique y.

Lemma training_set_labels (labels : ndarray Z) (features : ndarray R) X y :
  training_set labels features = Ok (X, y) ->
  y = map (fun l => (l - 1)%Z) (filter (fun l => (l > 0)%Z) (data labels)).
Proof.
  unfold training_set. simpl.
  destruct (shape_last features) as [F|]; simpl; [|done].
  destruct (reshape_rows features F) as [X'|]; simpl; [|done].
  destruct (bool_index_rows X' _) as [X''|]; simpl; [|done].
  unfold bool_index. rewrite length_map, decide_True by done. simpl.
  intros [= _ <-]. by rewrite compress_map_filter.
Qed.



End FittedModels.

(** ** Claim about the class weights *)


(** ** Slicing and the feature fetch *)

Section Slicing.

Lemma unravel_snoc s F r f :
  r < size_of s -> f < F ->
  unravel (s ++ [F]) (r * F + f) = unravel s r ++ [f].
Proof.
  revert r. induction s as [|n s IH]; intros r Hr Hf.
  - simpl in Hr. assert (r = 0) as -> by lia.
    replace (0 * F + f) with f by lia.
    cbn [app unravel size_of foldr]. by rewrite Nat.div_1_r.
  - cbn [app unravel]. cbn [size_of foldr] in Hr. fold (size_of s) in Hr.
    rewrite size_of_app. cbn [size_of foldr]. rewrite Nat.mul_1_r.
    assert (size_of s ≠ 0) as HS by (intros E0; rewrite E0 in Hr; lia).
    pose proof (Nat.div_mod_eq r (size_of s)) as Hdm.
    pose proof (Nat.mod_upper_bound r (size_of s) HS) as Hm.
    assert ((r * F + f) / (size_of s * F) = r / size_of s) as ->.
    { symmetry. apply (Nat.div_unique _ _ _ ((r mod size_of s) * F + f)); nia. }
    assert ((r * F + f) mod (size_of s * F) = (r mod size_of s) * F + f) as ->.
    { symmetry. apply (Nat.mod_unique _ _ (r / size_of s)); nia. }
    by rewrite IH.
Qed.


Lemma shift_index_snoc s F mask idx f :
  length mask = length s -> length idx = length s ->
  shift_index (s ++ [F]) mask (idx ++ [f]) = shift_index s mask idx ++ [f].
Proof.
  revert mask idx. induction s as [|n s IH]; intros [|sl mask] [|i idx] ??;
    simplify_eq/=; [done|]. by rewrite IH.
Qed.

Lemma sliced_shape_snoc s F mask :
  length mask = length s ->
  sliced_shape (s ++ [F]) mask = sliced_shape s mask ++ [F].
Proof.
  revert mask. induction s as [|n s IH]; intros [|sl mask] ?; simplify_eq/=; [done|].
  by rewrite IH.
Qed.

Lemma length_sliced_shape s mask :
  length (sliced_shape s mask) = length s.
Proof.
  revert mask. induction s as [|n s IH]; intros [|sl mask]; simpl; auto.
Qed.

Lemma map_seq_rows {A} (g : nat -> A) V F :
  map g (seq 0 (V * F)) =
    concat (map (fun r => map (fun f => g (r * F + f)) (seq 0 F)) (seq 0 V)).
Proof.
  induction V as [|V IH]; [done|].
  replace (S V * F) with (V * F + F) by lia.
  rewrite seq_app, map_app, IH.
  rewrite (seq_S V), map_app, concat_app. f_equal.
  cbn [map concat]. rewrite app_nil_r.
  replace (0 + V * F) with (V * F + 0) by lia.
  rewrite <- fmap_add_seq.
  change (map g (Nat.add (V * F) <$> seq 0 F)) with (g <$> (Nat.add (V * F) <$> seq 0 F)).
  by rewrite <- list_fmap_compose.
Qed.


Lemma masked_rows_ok {R} `{!Inhabited R} (arr : ndarray R) mask s F :
  shape arr = s ++ [F] -> F ≠ 0 -> length mask = length s ->
  let V := size_of (sliced_shape s mask) in
  masked_rows arr mask =
    Ok (NDArray [V; F] (concat (map (voxel_features arr mask) (seq 0 V)))).
Proof.
  intros E HF Hlen V. unfold masked_rows, getitem.
  rewrite decide_True by (rewrite E, length_app; simpl; lia).
  cbn [mbind result_bind]. rewrite (shape_last_snoc _ _ _ E). cbn [mbind result_bind].
  unfold reshape_rows. cbn [data]. rewrite length_map, length_seq.
  rewrite E, (sliced_shape_snoc _ _ _ Hlen), size_of_app.
  cbn [size_of foldr]. rewrite Nat.mul_1_r. fold (size_of (sliced_shape s mask)). fold V.
  rewrite decide_False by done.
  rewrite Nat.Div0.mod_mul, decide_True by done.
  rewrite Nat.div_mul by done. do 2 f_equal.
  rewrite map_seq_rows. f_equal.
  apply Forall_fmap_ext, Forall_forall. intros r Hr%elem_of_seq.
  unfold voxel_features, item.
  rewrite (shape_init_snoc _ _ _ E), E, last_snoc. cbn [default].
  apply Forall_fmap_ext, Forall_forall. intros f Hf%elem_of_seq.
  rewrite unravel_snoc by (subst V; simpl in *; lia).
  rewrite shift_index_snoc; [done|done|].
  by rewrite length_unravel, length_sliced_shape.
Qed.

Lemma length_voxel_features {R} `{!Inhabited R} (arr : ndarray R) mask s F r :
  shape arr = s ++ [F] -> length (voxel_features arr mask r) = F.
Proof.
  intros E. unfold voxel_features. by rewrite length_map, length_seq, E, last_snoc.
Qed.

Lemma masked_rows_not_no_features {R} `{!Inhabited R} (arr : ndarray R) mask :
  masked_rows arr mask ≠ Raise no_features.
Proof.
  unfold masked_rows, getitem, shape_last, reshape_rows, no_features.
  destruct (decide (length mask <= _)); cbn [mbind result_bind]; [|done].
  destruct (last (shape arr)); cbn [mbind result_bind]; [|done].
  repeat case_decide; done.
Qed.

Lemma concatenate_axis1_not_no_features {A} (l : list (ndarray A)) :
  concatenate_axis1 l ≠ Raise no_features.
Proof.
  unfold no_features.
  induction l as [|a l IH]; [done|].
  destruct l as [|b l].
  - simpl. destruct (shape a) as [|? [|? [|]]]; done.
  - change (concatenate_axis1 (a :: b :: l)) with
      (b' ← concatenate_axis1 (b :: l);
       match shape a, shape b' with
       | [N; F], [N'; F'] =>
           if decide (N = N') then
             Ok (NDArray [N; F + F'] (concat (zip_with app (rows a) (rows b'))))
           else Raise (ValueError "all the input array dimensions except for the concatenation axis must match exactly")
       | _, _ => Raise (ValueError "axis 1 is out of bounds")
       end).
    destruct (concatenate_axis1 (b :: l)) as [b'|e]; cbn [mbind result_bind]; [|done].
    destruct (shape a) as [|? [|? [|]]]; try done.
    destruct (shape b') as [|? [|? [|]]]; try done.
    case_decide; done.
Qed.


End Slicing.

Section Voxels.

Lemma rows_of_voxels {A} (g : nat -> list A) V F :
  (forall r, length (g r) = F) ->
  rows (NDArray [V; F] (concat (map g (seq 0 V)))) = map g (seq 0 V).
Proof.
  intros Hg.
  rewrite <- (length_seq V 0) at 1.
  rewrite <- (length_map g (seq 0 V)).
  apply rows_concat, Forall_forall. intros l (r & -> & _)%list_elem_of_fmap. done.
Qed.

Lemma length_concat_voxels {A} (g : nat -> list A) (l : list nat) W :
  (forall r, length (g r) = W) -> length (concat (map g l)) = length l * W.
Proof.
  intros Hg. induction l as [|x l IH]; [done|].
  simpl. rewrite length_app, IH, Hg. lia.
Qed.

Lemma zip_with_map_same {A B C D} (f : B -> C -> D) (g : A -> B) (h : A -> C) l :
  zip_with f (map g l) (map h l) = map (fun x => f (g x) (h x)) l.
Proof. induction l as [|x l IH]; [done|]. simpl. by rewrite IH. Qed.

End Voxels.

Section GetFeatures.

Context {R : Type} `{!Inhabited R}.
Implicit Types (app : App (R:=R)).

Lemma _get_features_none app mask :
  _get_features app mask false false = Raise no_features.
Proof. done. Qed.

Lemma _get_features_selected app mask sk tt :
  _get_features app mask sk tt = Raise no_features -> sk = false /\ tt = false.
Proof.
  unfold _get_features. intros H.
  destruct sk, tt; [exfalso..|done]; revert H; cbn [mbind result_bind].
  - pose proof (masked_rows_not_no_features (feature_data_skimage app) mask) as H1.
    pose proof (masked_rows_not_no_features (feature_data_tomotwin app) mask) as H2.
    destruct (masked_rows (feature_data_skimage app) mask) as [a|]; [|done].
    cbn [mbind result_bind].
    destruct (masked_rows (feature_data_tomotwin app) mask) as [b|]; [|done].
    cbn [mbind result_bind Datatypes.app]. apply concatenate_axis1_not_no_features.
  - pose proof (masked_rows_not_no_features (feature_data_skimage app) mask) as H1.
    destruct (masked_rows (feature_data_skimage app) mask) as [a|]; [|done].
    cbn [mbind result_bind Datatypes.app]. apply concatenate_axis1_not_no_features.
  - pose proof (masked_rows_not_no_features (feature_data_tomotwin app) mask) as H2.
    destruct (masked_rows (feature_data_tomotwin app) mask) as [b|]; [|done].
    cbn [mbind result_bind Datatypes.app]. apply concatenate_axis1_not_no_features.
Qed.

Lemma _get_features_ok app mask sk tt s F1 F2 :
  volume_invariant app s F1 F2 -> length mask = 3 ->
  sk = true \/ tt = true ->
  let V := size_of (sliced_shape s mask) in
  _get_features app mask sk tt =
    Ok (NDArray [V; (if sk then F1 else 0) + (if tt then F2 else 0)]
          (concat (map (fun r =>
                     (if sk then voxel_features (feature_data_skimage app) mask r
                      else []) ++
                     (if tt then voxel_features (feature_data_tomotwin app) mask r
                      else []))
                   (seq 0 V)))).
Proof.
  intros Hinv Hmask Hsel V. unfold _get_features.
  pose proof (inv_rank _ _ _ _ Hinv) as Hrank.
  assert (length mask = length s) as Hlen by congruence.
  pose proof (masked_rows_ok (feature_data_skimage app) mask s F1
                (inv_skimage_shape _ _ _ _ Hinv) (inv_skimage_dim _ _ _ _ Hinv) Hlen)
    as H1.
  pose proof (masked_rows_ok (feature_data_tomotwin app) mask s F2
                (inv_tomotwin_shape _ _ _ _ Hinv) (inv_tomotwin_dim _ _ _ _ Hinv) Hlen)
    as H2.
  cbn zeta in H1, H2. fold V in H1, H2.
  destruct sk, tt; [| | |by destruct Hsel].
  - rewrite H1, H2. cbn [mbind result_bind Datatypes.app concatenate_axis1 shape].
    rewrite decide_True by done. do 2 f_equal.
    rewrite (rows_of_voxels _ V F1), (rows_of_voxels _ V F2)
      by (intros; eapply length_voxel_features;
          eauto using inv_skimage_shape, inv_tomotwin_shape).
    by rewrite zip_with_map_same.
  - rewrite H1. cbn [mbind result_bind Datatypes.app concatenate_axis1 shape].
    rewrite Nat.add_0_r. do 3 f_equal.
    apply Forall_fmap_ext, Forall_forall. intros r _. by rewrite app_nil_r.
  - rewrite H2. cbn [mbind result_bind Datatypes.app concatenate_axis1 shape]. done.
Qed.

(** C7: the fetch raises its explicit error exactly when no feature set is
    selected; otherwise, on a store that satisfies the data model, it
    returns one row per voxel of the mask, the selected variants' feature
    vectors one after the other: shape (voxels_in_mask, total_feature_dim).
    Sets of shape (4,10,10,8) and (4,10,10,32) over the whole volume give
    shape (400, 40). *)
Theorem C7_get_features :
  (forall app mask sk tt,
     _get_features app mask sk tt = Raise no_features <-> sk = false /\ tt = false) /\
  (forall app mask sk tt s F1 F2,
     volume_invariant app s F1 F2 -> length mask = 3 ->
     sk = true \/ tt = true ->
     exists out,
       _get_features app mask sk tt = Ok out /\
       shape out = [size_of (sliced_shape s mask);
                    (if sk then F1 else 0) + (if tt then F2 else 0)] /\
       wf out /\
       rows out =
         map (fun r =>
                (if sk then voxel_features (feature_data_skimage app) mask r else []) ++
                (if tt then voxel_features (feature_data_tomotwin app) mask r else []))
             (seq 0 (size_of (sliced_shape s mask)))) /\
  (forall app,
     volume_invariant app [4; 10; 10] 8 32 ->
     exists mask out,
       _get_mask_idx app "Whole Image" = Ok mask /\
       _get_features app mask true true = Ok out /\
       shape out = [400; 40]).
Proof.
  split; [|split].
  - intros app mask sk tt. split; [apply _get_features_selected|].
    intros [-> ->]. apply _get_features_none.
  - intros app mask sk tt s F1 F2 Hinv Hmask Hsel.
    eexists. split; [by eapply _get_features_ok|].
    split; [done|].
    assert (forall r,
      length ((if sk then voxel_features (feature_data_skimage app) mask r else []) ++
              (if tt then voxel_features (feature_data_tomotwin app) mask r else []))
      = (if sk then F1 else 0) + (if tt then F2 else 0)) as Hrow.
    { intros r. rewrite length_app.
      destruct sk, tt; simpl;
        rewrite ?(length_voxel_features _ _ _ _ _ (inv_skimage_shape _ _ _ _ Hinv)),
                ?(length_voxel_features _ _ _ _ _ (inv_tomotwin_shape _ _ _ _ Hinv));
        done. }
    split.
    + unfold wf. cbn [data shape size_of foldr].
      rewrite (length_concat_voxels _ _ _ Hrow), length_seq. lia.
    + by apply rows_of_voxels.
  - intros app Hinv.
    eexists _, _. split.
    { unfold _get_mask_idx. simpl. rewrite (inv_image _ _ _ _ Hinv). reflexivity. }
    split; [by eapply (_get_features_ok app _ true true); [done|done|left]|].
    done.
Qed.

End GetFeatures.

(** ** Background estimation *)

Section SetItem.

Lemma setitem_ok (a : ndarray Z) idx v :
  in_bounds idx (shape a) ->
  setitem a idx v =
    Ok (NDArray (shape a)
          (imap (fun k x => if decide (unravel (shape a) k = idx) then v else x)
                (data a))).
Proof.
  intros Hb. pose proof (in_bounds_length _ _ Hb) as Hlen.
  unfold setitem. rewrite decide_True by lia.
  rewrite Hlen, firstn_all, decide_True by done.
  do 2 f_equal. apply imap_ext. intros k x _. simpl.
  by rewrite <- (length_unravel (shape a) k), firstn_all.
Qed.

Lemma setitem_item (a a' : ndarray Z) idx v idx' :
  wf a -> in_bounds idx (shape a) -> in_bounds idx' (shape a) ->
  setitem a idx v = Ok a' ->
  item a' idx' = if decide (idx' = idx) then v else item a idx'.
Proof.
  intros Hwf Hb Hb' H. rewrite setitem_ok in H by done. simplify_eq.
  unfold item. simpl.
  pose proof (ravel_lt _ _ Hb') as Hlt. rewrite <- Hwf in Hlt.
  destruct (lookup_lt_is_Some_2 _ _ Hlt) as [x Hx].
  rewrite !list_lookup_total_alt, list_lookup_imap, Hx. simpl.
  by rewrite unravel_ravel.
Qed.

Lemma setitem_shape (a a' : ndarray Z) idx v :
  setitem a idx v = Ok a' -> shape a' = shape a.
Proof.
  unfold setitem. repeat case_decide; [|done..]. by intros [= <-].
Qed.

Lemma setitem_wf (a a' : ndarray Z) idx v :
  wf a -> setitem a idx v = Ok a' -> wf a'.
Proof.
  unfold setitem, wf. repeat case_decide; [|done..]. intros Hwf [= <-].
  simpl. by rewrite length_imap.
Qed.

End SetItem.

Section PaintLoop.

Lemma where_3d (mask : ndarray bool) Zd Yd Xd :
  shape mask = [Zd; Yd; Xd] ->
  let hits := map (unravel [Zd; Yd; Xd]) (nonzero_flat mask) in
  where_ mask = [map (fun idx => idx !!! 0) hits;
                 map (fun idx => idx !!! 1) hits;
                 map (fun idx => idx !!! 2) hits].
Proof. intros E hits. unfold where_. rewrite E. done. Qed.

Lemma paint_loop_all (p : ndarray Z) (hits : list (list nat)) (range : list nat) :
  Forall (fun h => length h = 3) hits ->
  Forall (fun i => i < length hits) range ->
  paint_loop p [map (fun idx => idx !!! 0) hits;
                map (fun idx => idx !!! 1) hits;
                map (fun idx => idx !!! 2) hits] range =
    paint_all p (map (fun i => hits !!! i) range).
Proof.
  intros Hh Hr. revert p. induction Hr as [|i range Hi _ IH]; intros p; [done|].
  cbn [paint_loop map paint_all].
  destruct (lookup_lt_is_Some_2 _ _ Hi) as [h Hlk].
  assert (length h = 3) as Hlen.
  { eapply Forall_forall in Hh; [exact Hh|]. by eapply list_elem_of_lookup_2. }
  unfold index_at, at_. cbn [lookup list_lookup].
  rewrite !list_lookup_fmap, Hlk. cbn [fmap option_fmap option_map mbind result_bind].
  rewrite (list_lookup_total_correct _ _ _ Hlk).
  destruct h as [|h0 [|h1 [|h2 [|]]]]; try done.
  cbn [lookup_total list_lookup_total].
  destruct (setitem p [h0; h1; h2] 1%Z) as [p1|]; [|done].
  cbn [mbind result_bind]. apply IH.
Qed.

Lemma map_lookup_total_seq {A} `{!Inhabited A} (l : list A) :
  map (fun i => l !!! i) (seq 0 (length l)) = l.
Proof.
  apply list_eq. intros i. rewrite list_lookup_fmap.
  destruct (l !! i) as [x|] eqn:E.
  - rewrite lookup_seq_lt by (by eapply lookup_lt_Some). simpl.
    by rewrite (list_lookup_total_correct _ _ _ E).
  - rewrite lookup_seq_ge; [done|]. by apply lookup_ge_None.
Qed.

Lemma paint_all_spec (p : ndarray Z) (hits : list (list nat)) s :
  wf p -> shape p = s -> Forall (fun h => in_bounds h s) hits ->
  exists p',
    paint_all p hits = Ok p' /\ shape p' = s /\ wf p' /\
    forall idx, in_bounds idx s ->
      item p' idx = if decide (idx ∈ hits) then 1%Z else item p idx.
Proof.
  intros Hwf Hs Hh. revert p Hwf Hs.
  induction Hh as [|h hits Hb _ IH]; intros p Hwf Hs.
  { exists p. repeat split; done. }
  cbn [paint_all]. rewrite <- Hs in Hb.
  destruct (setitem p h 1%Z) as [p1|] eqn:E1.
  2:{ by rewrite setitem_ok in E1. }
  cbn [mbind result_bind].
  pose proof (setitem_shape _ _ _ _ E1) as Hs1.
  pose proof (setitem_wf _ _ _ _ Hwf E1) as Hwf1.
  destruct (IH p1 Hwf1 ltac:(congruence)) as (p' & Hp' & Hs' & Hwf' & Hitem).
  exists p'. repeat split; try done.
  intros idx Hidx. rewrite (Hitem idx Hidx).
  rewrite <- Hs in Hidx.
  rewrite (setitem_item p p1 h 1%Z idx Hwf Hb Hidx E1).
  destruct (decide (idx = h)) as [->|Hne].
  - rewrite (decide_True (P:=h ∈ h :: hits)) by set_solver.
    by destruct (decide (h ∈ hits)).
  - destruct (decide (idx ∈ hits)).
    + rewrite decide_True by set_solver. done.
    + rewrite decide_False by set_solver. done.
Qed.

Lemma elem_of_hits (mask : ndarray bool) idx :
  wf mask -> in_bounds idx (shape mask) ->
  idx ∈ map (unravel (shape mask)) (nonzero_flat mask) <->
  data mask !! ravel (shape mask) idx = Some true.
Proof.
  intros Hwf Hb. unfold nonzero_flat. split.
  - intros (k & -> & Hk)%list_elem_of_fmap.
    apply list_elem_of_filter in Hk as [Hk Hin].
    apply elem_of_seq in Hin. rewrite ravel_unravel; [done|]. rewrite <- Hwf. lia.
  - intros H. apply list_elem_of_fmap. exists (ravel (shape mask) idx).
    split; [by rewrite unravel_ravel|].
    apply list_elem_of_filter. split; [done|].
    apply elem_of_seq. apply lookup_lt_Some in H. lia.
Qed.

Lemma hits_in_bounds (mask : ndarray bool) :
  wf mask ->
  Forall (fun h => in_bounds h (shape mask))
         (map (unravel (shape mask)) (nonzero_flat mask)).
Proof.
  intros Hwf. apply Forall_forall. intros h (k & -> & Hk)%list_elem_of_fmap.
  apply unravel_in_bounds. unfold nonzero_flat in Hk.
  apply list_elem_of_filter in Hk as [_ Hk%elem_of_seq]. rewrite <- Hwf. lia.
Qed.

End PaintLoop.

Section BackgroundClaim.

Context {R : Type} `{!Inhabited R}.
Variable Rzero : R.
Variables Radd Rsub Rmul : R -> R -> R.
Variable Rsqrt : R -> R.
Variable Rltb : R -> R -> bool.
Variable np_median : list R -> R.
Variable np_percentile : list R -> nat -> R.

Notation paint_background :=
  (_paint_background_thread Rzero Radd Rsub Rmul Rsqrt Rltb np_median np_percentile).
Notation distance := (voxel_distance Rzero Radd Rsub Rmul Rsqrt np_median).
Notation threshold := (distance_threshold Rzero Radd Rsub Rmul Rsqrt np_median np_percentile).


End BackgroundClaim.

(** ** The event handlers on concrete inputs *)

Section Guards.

Context {R : Type} `{!Inhabited R}.

(** A shape tuple never equals the integer 0: the "no training data"
    guard of [on_data_change] is never taken. *)
Lemma shape_guard_dead (s : list nat) :
  np_any (py_eq (py_shape s) (PyInt 0)) = false.
Proof. done. Qed.

(** With live fitting switched off a data change submits nothing. *)
Lemma on_data_change_live_fit_off (app app' : App (R:=R)) :
  live_fit_checkbox (widget app) = false ->
  on_data_change app = Ok app' -> app' = app.
Proof.
  intros Hoff. unfold on_data_change. rewrite Hoff.
  destruct (_get_training_features_and_labels _ _ _ _) as [[f l]|];
    cbn [mbind result_bind]; [|done].
  rewrite shape_guard_dead. by intros [= <-].
Qed.

(** A data change that submits a job has live fitting switched on. *)
Lemma on_data_change_submit_live_fit (app app' : App (R:=R)) :
  on_data_change app = Ok app' -> executor app' ≠ executor app ->
  live_fit_checkbox (widget app) = true.
Proof.
  intros H Hne. destruct (live_fit_checkbox (widget app)) eqn:E; [done|].
  by rewrite (on_data_change_live_fit_off app app' E H) in Hne.
Qed.

End Guards.

Section Inputs.

Import Examples.



Lemma app0_invariant : volume_invariant app0 [1; 2; 2] 1 2.
Proof. by constructor. Qed.

Lemma app_scenario_invariant : volume_invariant app_scenario [4; 10; 10] 8 32.
Proof. constructor; try done; vm_compute; reflexivity. Qed.

(** C1: on labels without a positive entry [fit_model] returns [None], and
    the completion callback then stores that [None]: the model held before
    the fit was submitted is gone. *)
Theorem C1_skip_resets_model :
  model app_erased = Some (stump 0 [2]%Z) /\
  data (painting_data app_erased) = [0; 0; 0; 0]%Z /\
  fit_model rf_stump xgb_stump (squeeze (painting_data app_erased))
            (feature_data_tomotwin app_erased) "Random Forest" = Ok None /\
  (exists app', on_model_fit app_erased (Ok None) true false = Ok app' /\
                model app' = None) /\
  (exists app1 app2,
     on_data_change app_erased = Ok app1 /\
     run_task rf_stump xgb_stump app1 = Ok app2 /\
     model app2 = None).
Proof.
  split; [reflexivity|]. split; [reflexivity|].
  split; [vm_compute; reflexivity|].
  split.
  - eexists. split; [vm_compute; reflexivity|reflexivity].
  - eexists _, _. split; [vm_compute; reflexivity|].
    split; [vm_compute; reflexivity|reflexivity].
Qed.

(** C5: with live fitting on, a data change whose gathered training labels
    are empty still sets the status text and submits a fit job. *)
Theorem C5_empty_training_data_still_fits :
  exists features labels app',
    live_fit_checkbox (widget app_empty_view) = true /\
    _get_training_features_and_labels app_empty_view "Current Displayed Region"
                                      false true = Ok (features, labels) /\
    shape labels = [0; 2] /\ data labels = [] /\
    on_data_change app_empty_view = Ok app' /\
    status (widget app_empty_view) = "Ready" /\
    status (widget app') = "Fitting model ..." /\
    executor app_empty_view = [] /\
    executor app' = [FitTask labels features "Random Forest" true false].
Proof.
  eexists _, _, _. split; [reflexivity|].
  split; [vm_compute; reflexivity|].
  split; [reflexivity|]. split; [reflexivity|].
  split; [vm_compute; reflexivity|].
  repeat split; reflexivity.
Qed.



Lemma C3_witness :
  exists X y,
    training_set (squeeze (painting_data app0)) (feature_data_tomotwin app0)
      = Ok (X, y) /\
    rows X = [[0; 1]; [10; 11]]%Z /\ y = [0; 2]%Z.
Proof.
  destruct (C3_training_set_is_labelled_voxels rf_stump xgb_stump
              (squeeze (painting_data app0)) (feature_data_tomotwin app0)
              [1; 2; 2] 2)
    as (_ & X & y & Hts & _ & Hrows & Hy & _).
  - discriminate.
  - reflexivity.
  - reflexivity.
  - lia.
  - reflexivity.
  - exists X, y. split; [exact Hts|]. split; [exact Hrows|exact Hy].
Defined.





Lemma C7_witness :
  (exists out,
     _get_features app0 [Slice 0 1; Slice 0 2; Slice 0 2] true true = Ok out /\
     shape out = [4; 3]) /\
  (exists mask out,
     _get_mask_idx app_scenario "Whole Image" = Ok mask /\
     _get_features app_scenario mask true true = Ok out /\
     shape out = [400; 40]).
Proof.
  split.
  - destruct (proj1 (proj2 C7_get_features) app0
                [Slice 0 1; Slice 0 2; Slice 0 2] true true [1; 2; 2] 1 2)
      as (out & Hout & Hshape & _).
    + exact app0_invariant.
    + reflexivity.
    + left. reflexivity.
    + exists out. split; [exact Hout|exact Hshape].
  - apply (proj2 (proj2 C7_get_features) app_scenario).
    exact app_scenario_invariant.
Defined.




End Inputs.

(** * Further properties of the code *)

(** ** Slicing and the region selector *)

Section GetItem.

Context {A : Type} `{!Inhabited A}.

Lemma getitem_ok (a : ndarray A) mask :
  length mask <= length (shape a) ->
  getitem a mask =
    Ok (NDArray (sliced_shape (shape a) mask)
          (map (fun k => data a !!! ravel (shape a)
                  (shift_index (shape a) mask
                     (unravel (sliced_shape (shape a) mask) k)))
               (seq 0 (size_of (sliced_shape (shape a) mask))))).
Proof. intros H. unfold getitem. by rewrite decide_True. Qed.

Lemma shift_index_in_bounds s mask idx :
  in_bounds idx (sliced_shape s mask) -> in_bounds (shift_index s mask idx) s.
Proof.
  revert mask idx. induction s as [|n s IH]; intros mask idx Hb.
  - destruct mask; simpl in *; done.
  - destruct mask as [|sl mask]; [by destruct idx|].
    simpl in Hb. inversion Hb as [|i m idx' s' Hi Hrest]; subst.
    simpl. constructor; [|by apply IH].
    unfold slice_len, slice_start in *. lia.
Qed.

(** An entry of a slice is the entry of the source at the shifted index. *)
Lemma getitem_item (a sub : ndarray A) mask idx :
  getitem a mask = Ok sub ->
  in_bounds idx (shape sub) ->
  item sub idx = item a (shift_index (shape a) mask idx) /\
  in_bounds (shift_index (shape a) mask idx) (shape a).
Proof.
  unfold getitem. case_decide; [|done]. intros [= <-] Hb. simpl in Hb.
  split; [|by apply shift_index_in_bounds].
  unfold item. simpl.
  pose proof (ravel_lt _ _ Hb) as Hlt.
  rewrite list_lookup_total_alt, list_lookup_fmap, lookup_seq_lt by done.
  simpl. by rewrite unravel_ravel.
Qed.

Lemma getitem_wf (a sub : ndarray A) mask : getitem a mask = Ok sub -> wf sub.
Proof.
  unfold getitem. case_decide; [|done]. intros [= <-].
  unfold wf. simpl. by rewrite length_map, length_seq.
Qed.

Lemma sliced_shape_whole s rest :
  sliced_shape (s ++ rest) (map (fun sz => Slice 0 sz) s) = s ++ rest.
Proof.
  induction s as [|n s IH]; [by destruct rest|]. simpl. rewrite IH.
  unfold slice_len. simpl. f_equal. lia.
Qed.

Lemma shift_index_whole s rest idx :
  shift_index (s ++ rest) (map (fun sz => Slice 0 sz) s) idx = idx.
Proof.
  revert idx. induction s as [|n s IH]; intros [|i idx]; simpl; try done.
  - by destruct rest.
  - by destruct rest.
  - by rewrite IH.
Qed.

(** Slicing the leading axes with their full extent gives the array back. *)
Lemma getitem_whole (a : ndarray A) s rest :
  wf a -> shape a = s ++ rest ->
  getitem a (map (fun sz => Slice 0 sz) s) = Ok a.
Proof.
  intros Hwf E. rewrite getitem_ok by (rewrite E, length_map, length_app; lia).
  destruct a as [sh d]. simpl in *. subst sh.
  rewrite sliced_shape_whole. f_equal. f_equal.
  unfold wf in Hwf. simpl in Hwf.
  apply list_eq. intros k. rewrite list_lookup_fmap.
  destruct (decide (k < size_of (s ++ rest))) as [Hk|Hk].
  - rewrite lookup_seq_lt by done. simpl.
    rewrite shift_index_whole, ravel_unravel by done.
    rewrite list_lookup_total_alt.
    destruct (d !! k) eqn:E; [done|]. apply lookup_ge_None in E. lia.
  - rewrite lookup_seq_ge by lia. simpl. symmetry. apply lookup_ge_None. lia.
Qed.

End GetItem.

Section Region.

Context {R : Type} `{!Inhabited R}.
Implicit Types (app : App (R:=R)).

(** X1: The mask of "Whole Image" selects everything: slicing a well-formed
    array whose leading axes are the image's (a label array, a feature
    array) with it gives the array back. *)
Theorem whole_image_mask_selects_all app {B} `{!Inhabited B} (a : ndarray B) rest :
  wf a -> shape a = shape (image_data app) ++ rest ->
  exists mask,
    _get_mask_idx app "Whole Image" = Ok mask /\
    length mask = length (shape (image_data app)) /\
    getitem a mask = Ok a.
Proof.
  intros Hwf E. eexists. split; [reflexivity|].
  split; [by rewrite length_map|]. by eapply getitem_whole.
Qed.

Lemma _get_mask_idx_view app dc z y0 y1 x0 x1 :
  dc ≠ "Whole Image" ->
  current_step app !! 0 = Some z ->
  (corner_pixels app).1 !! 1 = Some y0 -> (corner_pixels app).2 !! 1 = Some y1 ->
  (corner_pixels app).1 !! 2 = Some x0 -> (corner_pixels app).2 !! 2 = Some x1 ->
  _get_mask_idx app dc = Ok [Slice z (z + 1); Slice y0 y1; Slice x0 x1].
Proof.
  intros Hdc Hz Hy0 Hy1 Hx0 Hx1. unfold _get_mask_idx, at_.
  apply String.eqb_neq in Hdc. rewrite Hdc, Hz, Hy0, Hy1, Hx0, Hx1. done.
Qed.

(** X2: The labels gathered for the displayed region are the painting's
    entries of the displayed plane, within the displayed rectangle clipped
    to the volume. *)
Theorem displayed_region_labels app dc Zd Yd Xd F1 F2 z y0 y1 x0 x1 :
  volume_invariant app [Zd; Yd; Xd] F1 F2 ->
  dc ≠ "Whole Image" ->
  current_step app !! 0 = Some z ->
  (corner_pixels app).1 !! 1 = Some y0 -> (corner_pixels app).2 !! 1 = Some y1 ->
  (corner_pixels app).1 !! 2 = Some x0 -> (corner_pixels app).2 !! 2 = Some x1 ->
  exists mask active_image active_labels,
    _get_mask_idx app dc = Ok mask /\
    _get_active_image_and_labels app mask = Ok (active_image, active_labels) /\
    wf active_labels /\
    shape active_labels =
      [(z + 1) `min` Zd - z `min` Zd; y1 `min` Yd - y0 `min` Yd;
       x1 `min` Xd - x0 `min` Xd] /\
    forall j k, z < Zd -> y0 + j < y1 `min` Yd -> x0 + k < x1 `min` Xd ->
      item active_labels [0; j; k] = item (painting_data app) [z; y0 + j; x0 + k].
Proof.
  intros Hinv Hdc Hz Hy0 Hy1 Hx0 Hx1.
  pose proof (inv_image _ _ _ _ Hinv) as Ei.
  pose proof (inv_painting_shape _ _ _ _ Hinv) as Ep.
  eexists _, _, _. split; [by eapply _get_mask_idx_view|].
  unfold _get_active_image_and_labels.
  rewrite !getitem_ok by (rewrite ?Ei, ?Ep; simpl; lia).
  cbn [mbind result_bind]. split; [reflexivity|].
  split. { unfold wf. simpl. by rewrite length_map, length_seq. }
  split. { simpl. rewrite Ep. reflexivity. }
  intros j k Hzlt Hj Hk.
  set (mask := [Slice z (z + 1); Slice y0 y1; Slice x0 x1]).
  destruct (getitem_item (painting_data app) _ mask [0; j; k]
              (getitem_ok _ mask ltac:(rewrite Ep; simpl; lia))) as [Hitem _].
  { simpl. rewrite Ep. unfold mask. simpl. unfold slice_len. simpl.
    repeat constructor; lia. }
  rewrite Hitem, Ep. unfold mask. simpl. unfold slice_start. simpl.
  do 2 f_equal; [|f_equal; [|f_equal]]; lia.
Qed.

(** X3: A displayed rectangle that is empty or inverted, or a plane outside
    the volume, gives a region without voxels and no error. *)
Theorem empty_region_is_silent app dc Zd Yd Xd F1 F2 z y0 y1 x0 x1 :
  volume_invariant app [Zd; Yd; Xd] F1 F2 ->
  dc ≠ "Whole Image" ->
  current_step app !! 0 = Some z ->
  (corner_pixels app).1 !! 1 = Some y0 -> (corner_pixels app).2 !! 1 = Some y1 ->
  (corner_pixels app).1 !! 2 = Some x0 -> (corner_pixels app).2 !! 2 = Some x1 ->
  Zd <= z \/ y1 <= y0 \/ x1 <= x0 ->
  exists mask active_image active_labels,
    _get_mask_idx app dc = Ok mask /\
    _get_active_image_and_labels app mask = Ok (active_image, active_labels) /\
    data active_labels = [] /\ data active_image = [].
Proof.
  intros Hinv Hdc Hz Hy0 Hy1 Hx0 Hx1 Hempty.
  pose proof (inv_image _ _ _ _ Hinv) as Ei.
  pose proof (inv_painting_shape _ _ _ _ Hinv) as Ep.
  eexists _, _, _. split; [by eapply _get_mask_idx_view|].
  unfold _get_active_image_and_labels.
  rewrite !getitem_ok by (rewrite ?Ei, ?Ep; simpl; lia).
  cbn [mbind result_bind]. split; [reflexivity|].
  assert (size_of (sliced_shape [Zd; Yd; Xd]
            [Slice z (z + 1); Slice y0 y1; Slice x0 x1]) = 0) as Hsz.
  { simpl. unfold slice_len. simpl. nia. }
  simpl. rewrite Ei, Ep, Hsz. done.
Qed.

End Region.

(** ** Gathering the training data *)

Section Gather.

Context {R : Type} `{!Inhabited R}.
Implicit Types (app : App (R:=R)).

Lemma squeeze_data {A} (a : ndarray A) : data (squeeze a) = data a.
Proof. done. Qed.

(** The first half of [_get_training_features_and_labels] is the
    computation of [_get_features]. *)
Lemma gather_unfold app dc sk tt mask out :
  _get_mask_idx app dc = Ok mask ->
  _get_features app mask sk tt = Ok out ->
  _get_training_features_and_labels app dc sk tt =
    if String.eqb dc "Current Displayed Region" then
      '(_, active_labels) ← _get_active_image_and_labels app mask;
      Ok (out, squeeze active_labels)
    else if String.eqb dc "Whole Image" then
      Ok (if sk then feature_data_skimage app else feature_data_tomotwin app,
          squeeze (painting_data app))
    else Raise (ValueError ("Invalid data choice: " ++ dc)%string).
Proof.
  intros Hmask Hout. unfold _get_training_features_and_labels.
  rewrite Hmask. cbn [mbind result_bind].
  pose proof Hout as Hout'. unfold _get_features in Hout'.
  destruct (if sk then _ else _) as [f1|]; cbn [mbind result_bind] in *; [|done].
  destruct (if tt then _ else _) as [f2|]; cbn [mbind result_bind] in *; [|done].
  cbn zeta in Hout'.
  destruct (f1 ++ f2) as [|x l] eqn:E; [done|].
  rewrite Hout'. cbn [mbind result_bind]. rewrite Hout. done.
Qed.


Lemma _get_mask_idx_length app dc mask Zd Yd Xd :
  shape (image_data app) = [Zd; Yd; Xd] ->
  _get_mask_idx app dc = Ok mask -> length mask = 3.
Proof.
  intros Ei. unfold _get_mask_idx. rewrite Ei.
  destruct (String.eqb dc "Whole Image"); [intros H; by simplify_eq|].
  destruct (at_ (current_step app) 0); cbn [mbind result_bind]; [|done].
  destruct (at_ (corner_pixels app).1 1); cbn [mbind result_bind]; [|done].
  destruct (at_ (corner_pixels app).2 1); cbn [mbind result_bind]; [|done].
  destruct (at_ (corner_pixels app).1 2); cbn [mbind result_bind]; [|done].
  destruct (at_ (corner_pixels app).2 2); cbn [mbind result_bind]; [|done].
  intros H; by simplify_eq.
Qed.

(** X4: Whatever the data choice and the view, the gathered features have one
    row per gathered label: on what
    [_get_training_features_and_labels] returns, the filtering of
    [fit_model] does not raise, and it keeps one row per kept label. *)
Theorem gathered_training_data_is_consistent app dc sk tt Zd Yd Xd F1 F2
    features labels :
  volume_invariant app [Zd; Yd; Xd] F1 F2 ->
  _get_training_features_and_labels app dc sk tt = Ok (features, labels) ->
  exists X y F,
    training_set labels features = Ok (X, y) /\
    shape X = [length y; F] /\
    y = map (fun l => (l - 1)%Z) (filter (fun l => (l > 0)%Z) (data labels)).
Proof.
  intros Hinv Hgather.
  assert (exists s F, wf features /\ shape features = s ++ [F] /\ F ≠ 0 /\
                      length (data labels) = size_of s) as (s & F & Hwf & E & HF & Hlen).
  { pose proof (inv_image _ _ _ _ Hinv) as Ei.
    pose proof (inv_painting_shape _ _ _ _ Hinv) as Ep.
    destruct (_get_mask_idx app dc) as [mask|] eqn:Hmask.
    2:{ unfold _get_training_features_and_labels in Hgather.
        by rewrite Hmask in Hgather. }
    pose proof (_get_mask_idx_length _ _ _ _ _ _ Ei Hmask) as Hlm.
    assert (sk = true \/ tt = true) as Hsel.
    { destruct sk, tt; auto. exfalso.
      unfold _get_training_features_and_labels in Hgather.
      rewrite Hmask in Hgather. done. }
    destruct (proj1 (proj2 C7_get_features) app mask sk tt _ _ _ Hinv Hlm Hsel)
      as (out & Hout & Hso & Hwo & _).
    rewrite (gather_unfold _ _ _ _ _ _ Hmask Hout) in Hgather.
    destruct (String.eqb dc "Current Displayed Region").
    - unfold _get_active_image_and_labels in Hgather.
      rewrite !getitem_ok in Hgather by (rewrite ?Ei, ?Ep, ?Hlm; simpl; lia).
      cbn [mbind result_bind] in Hgather. injection Hgather as <- <-.
      eexists [_], _. split; [exact Hwo|]. split; [exact Hso|]. split.
      + pose proof (inv_skimage_dim _ _ _ _ Hinv).
        pose proof (inv_tomotwin_dim _ _ _ _ Hinv).
        destruct sk, tt, Hsel; simpl; try done; lia.
      + rewrite squeeze_data. cbn [data].
        rewrite length_map, length_seq, Ep. simpl. lia.
    - destruct (String.eqb dc "Whole Image"); [|done].
      injection Hgather as <- <-. rewrite squeeze_data.
      rewrite (inv_painting_wf _ _ _ _ Hinv), Ep.
      destruct sk.
      + eexists _, _. split; [exact (inv_skimage_wf _ _ _ _ Hinv)|].
        split; [exact (inv_skimage_shape _ _ _ _ Hinv)|].
        split; [exact (inv_skimage_dim _ _ _ _ Hinv)|done].
      + eexists _, _. split; [exact (inv_tomotwin_wf _ _ _ _ Hinv)|].
        split; [exact (inv_tomotwin_shape _ _ _ _ Hinv)|].
        split; [exact (inv_tomotwin_dim _ _ _ _ Hinv)|done]. }
  pose proof (training_set_ok labels features s F Hwf E HF Hlen) as Hts.
  cbn zeta in Hts. eexists _, _, F. split; [exact Hts|].
  split; [by rewrite length_map|].
  by eapply training_set_labels.
Qed.

(** X5: A data choice other than the two of the dropdown is refused: the
    gathering never returns, and on a store and view that are in order the
    error is the explicit one. *)
Theorem invalid_data_choice_is_refused app dc sk tt :
  dc ≠ "Current Displayed Region" -> dc ≠ "Whole Image" ->
  (exists e, _get_training_features_and_labels app dc sk tt = Raise e) /\
  (forall mask out,
     _get_mask_idx app dc = Ok mask -> _get_features app mask sk tt = Ok out ->
     _get_training_features_and_labels app dc sk tt =
       Raise (ValueError ("Invalid data choice: " ++ dc)%string)).
Proof.
  intros H1%String.eqb_neq H2%String.eqb_neq.
  assert (forall mask out,
     _get_mask_idx app dc = Ok mask -> _get_features app mask sk tt = Ok out ->
     _get_training_features_and_labels app dc sk tt =
       Raise (ValueError ("Invalid data choice: " ++ dc)%string)) as Hexplicit.
  { intros mask out Hmask Hout.
    by rewrite (gather_unfold _ _ _ _ _ _ Hmask Hout), H1, H2. }
  split; [|done].
  destruct (_get_mask_idx app dc) as [mask|e] eqn:Hmask.
  2:{ exists e. unfold _get_training_features_and_labels. by rewrite Hmask. }
  destruct (_get_features app mask sk tt) as [out|e] eqn:Hout; [by eauto|].
  unfold _get_training_features_and_labels. rewrite Hmask. cbn [mbind result_bind].
  unfold _get_features in Hout.
  destruct (if sk then _ else _) as [f1|]; cbn [mbind result_bind] in *; [|by eauto].
  destruct (if tt then _ else _) as [f2|]; cbn [mbind result_bind] in *; [|by eauto].
  cbn zeta in Hout. destruct (f1 ++ f2) as [|x l]; [by eauto|].
  rewrite Hout. cbn [mbind result_bind]. eauto.
Qed.

End Gather.

(** ** Class weights and the model type *)

Section Weights.

Lemma QofN_pos n : 0 < n -> (0 < Sk.QofN n)%Q.
Proof. unfold Sk.QofN, Qlt. simpl. lia. Qed.

Lemma QofN_le a b : a <= b -> (Sk.QofN a <= Sk.QofN b)%Q.
Proof. unfold Sk.QofN, Qle. simpl. lia. Qed.

Lemma balanced_pos N K cnt :
  0 < N -> 0 < K -> 0 < cnt -> (0 < balanced N K cnt)%Q.
Proof.
  intros HN HK Hc. unfold balanced. apply Qlt_shift_div_l.
  - apply Qmult_lt_0_compat; by apply QofN_pos.
  - rewrite Qmult_0_l. by apply QofN_pos.
Qed.

Lemma balanced_antitone N K a b :
  0 < N -> 0 < K -> 0 < a -> a <= b ->
  (balanced N K b <= balanced N K a)%Q.
Proof.
  intros HN HK Ha Hab. unfold balanced, Qdiv.
  apply Qmult_le_l; [by apply QofN_pos|].
  assert (0 < Sk.QofN K * Sk.QofN a)%Q as Hpa
    by (apply Qmult_lt_0_compat; by apply QofN_pos).
  assert (0 < Sk.QofN K * Sk.QofN b)%Q as Hpb
    by (apply Qmult_lt_0_compat; apply QofN_pos; lia).
  apply Qle_shift_inv_l; [done|].
  rewrite Qmult_comm. apply Qle_shift_div_r; [done|].
  rewrite Qmult_1_l. apply Qmult_le_l; [by apply QofN_pos|]. by apply QofN_le.
Qed.

Lemma unique_length_pos y : y ≠ [] -> 0 < length (unique y).
Proof.
  intros Hy. destruct (unique y) eqn:E; [|simpl; lia]. by apply unique_nil in E.
Qed.

(** X7: The weight dictionary has an entry for exactly the classes present;
    every weight is positive, and a class that is no more frequent than
    another weighs at least as much. *)
Theorem class_weights_favour_rare_classes (y : list Z) :
  y ≠ [] ->
  exists d, weight_dict y = Ok d /\
    (forall c, is_Some (d !! c) <-> c ∈ y) /\
    (forall c w, d !! c = Some w -> (0 < w)%Q) /\
    (forall c1 c2 w1 w2,
       d !! c1 = Some w1 -> d !! c2 = Some w2 ->
       count c1 y <= count c2 y -> (w2 <= w1)%Q).
Proof.
  intros Hy. exists (dict (zip (unique y)
      (map (fun c => balanced (length y) (length (unique y)) (count c y)) (unique y)))).
  pose proof (weight_dict_ok y Hy) as Hd.
  split; [done|].
  assert (forall c, c ∉ y ->
    dict (zip (unique y)
      (map (fun c => balanced (length y) (length (unique y)) (count c y)) (unique y)))
      !! c = None) as Hnone.
  { intros c Hc. apply dict_lookup_None.
    rewrite fst_zip by (by rewrite length_map). by rewrite elem_of_unique. }
  assert (0 < length y) as HN by (destruct y; [done|simpl; lia]).
  pose proof (unique_length_pos y Hy) as HK.
  assert (forall c w, dict (zip (unique y)
      (map (fun c => balanced (length y) (length (unique y)) (count c y)) (unique y)))
      !! c = Some w ->
      c ∈ y /\ w = balanced (length y) (length (unique y)) (count c y)) as Hsome.
  { intros c w Hw. destruct (decide (c ∈ y)) as [Hc|Hc].
    - split; [done|]. rewrite (weight_dict_lookup y _ c Hy Hd Hc) in Hw. congruence.
    - rewrite (Hnone c Hc) in Hw. done. }
  split; [|split].
  - intros c. split.
    + intros [w Hw]. by apply Hsome in Hw as [? _].
    + intros Hc. rewrite (weight_dict_lookup y _ c Hy Hd Hc). by eexists.
  - intros c w [Hc ->]%Hsome. apply balanced_pos; [done|done|by apply count_pos].
  - intros c1 c2 w1 w2 [Hc1 ->]%Hsome [Hc2 ->]%Hsome Hle.
    apply balanced_antitone; [done|done|by apply count_pos|done].
Qed.

End Weights.

Section FitExtras.

Context {R : Type} `{!Inhabited R}.
Variable rf_fit : ndarray R -> list Z -> gmap Z Q -> result (Classifier (R:=R)).
Variable xgb_fit : ndarray R -> list Z -> list (option Q) -> result (Classifier (R:=R)).

Lemma kept_voxels_not_nil L l : l ∈ L -> (l > 0)%Z -> kept_voxels L ≠ [].
Proof.
  intros [i [Hi Hl]]%list_elem_of_lookup_total Hpos Hnil.
  assert (i ∈ kept_voxels L) as Hin by (apply elem_of_kept_voxels; split; [done|lia]).
  rewrite Hnil in Hin. by apply elem_of_nil in Hin.
Qed.

(** X6: An unsupported model type is reported only once a labelled voxel is
    there: without one, [fit_model] returns [None] whatever the type. *)
Theorem unsupported_model_type (labels : ndarray Z) (features : ndarray R)
    s F model_type :
  shape labels ≠ [] ->
  wf features -> shape features = s ++ [F] -> F ≠ 0 ->
  length (data labels) = size_of s ->
  model_type ≠ "Random Forest" -> model_type ≠ "XGBoost" ->
  fit_model rf_fit xgb_fit labels features model_type =
    if decide (Exists (fun l => (l > 0)%Z) (data labels))
    then Raise (ValueError ("Unsupported model type: " ++ model_type)%string)
    else Ok None.
Proof.
  intros Hnd Hwf E HF Hlen H1%String.eqb_neq H2%String.eqb_neq.
  destruct (decide (Exists _ _)) as [Hex|Hex].
  - apply Exists_exists in Hex as (l & Hl & Hpos).
    rewrite (fit_model_unfold _ _ _ _ _ _ _ Hnd
               (training_set_ok _ _ _ _ Hwf E HF Hlen)).
    pose proof (kept_voxels_not_nil _ _ Hl Hpos) as Hne.
    rewrite decide_False.
    2:{ rewrite length_map. intros E0%length_zero_iff_nil. done. }
    rewrite weight_dict_ok by (by destruct (kept_voxels (data labels))).
    cbn [mbind result_bind]. by rewrite H1, H2.
  - eapply fit_model_skip; try done.
    apply Forall_forall. intros l Hl.
    destruct (decide (l > 0)%Z); [|lia].
    exfalso. apply Hex, Exists_exists. eauto.
Qed.

(** X8: The per-sample weights handed to XGBoost: every sample has one, that
    of its class. *)
Theorem sample_weights_are_class_weights (labels : ndarray Z) (features : ndarray R)
    X y :
  shape labels ≠ [] ->
  training_set labels features = Ok (X, y) -> y ≠ [] ->
  exists sample_weights,
    fit_model rf_fit xgb_fit labels features "XGBoost" =
      (clf ← xgb_fit X y sample_weights; Ok (Some clf)) /\
    sample_weights =
      map (fun c => Some (balanced (length y) (length (unique y)) (count c y))) y.
Proof.
  intros Hnd Hts Hy. eexists. split.
  - rewrite (fit_model_unfold _ _ _ _ _ _ _ Hnd Hts).
    rewrite decide_False by (by intros E0%length_zero_iff_nil).
    rewrite weight_dict_ok by done. cbn [mbind result_bind]. reflexivity.
  - apply Forall_fmap_ext, Forall_forall. intros c Hc.
    by apply weight_dict_lookup; [|apply weight_dict_ok|].
Qed.

End FitExtras.

(** ** The fit / predict cycle *)

Section Orchestrator.

Context {R : Type} `{!Inhabited R}.
Variable rf_fit : ndarray R -> list Z -> gmap Z Q -> result (Classifier (R:=R)).
Variable xgb_fit : ndarray R -> list Z -> list (option Q) -> result (Classifier (R:=R)).
Implicit Types (app : App (R:=R)).

Notation cycle_step := (cycle_step rf_fit xgb_fit).

Lemma on_data_change_cases app app' :
  on_data_change app = Ok app' ->
  exists features labels,
    _get_training_features_and_labels app (data_dropdown (widget app)) false true
      = Ok (features, labels) /\
    app' =
      if live_fit_checkbox (widget app) then
        submit (set_status app "Fitting model ...")
               (FitTask labels features (model_dropdown (widget app))
                        (live_pred_checkbox (widget app)) false)
      else app.
Proof.
  unfold on_data_change.
  destruct (_get_training_features_and_labels _ _ _ _) as [[f l]|];
    cbn [mbind result_bind]; [|done].
  rewrite shape_guard_dead. intros H. exists f, l. split; [done|].
  destruct (live_fit_checkbox (widget app)); by simplify_eq.
Qed.

Lemma on_model_fit_cases app task lp us app' :
  on_model_fit app task lp us = Ok app' ->
  exists m, task = Ok m /\
    app' =
      if lp && truthy m then
        submit (set_status (set_model app m) "Predicting labels ...")
               (PredictTask (if us then feature_data_skimage app
                             else feature_data_tomotwin app))
      else set_model app m.
Proof.
  unfold on_model_fit. destruct task as [m|]; cbn [mbind result_bind]; [|done].
  intros H. exists m. split; [done|]. destruct (lp && truthy m); by simplify_eq.
Qed.

Lemma run_task_cases app app' :
  run_task rf_fit xgb_fit app = Ok app' ->
  (executor app = [] /\ app' = app) \/
  (exists labels features mt lp us q m,
     executor app = FitTask labels features mt lp us :: q /\
     fit_model rf_fit xgb_fit labels features mt = Ok m /\
     app' =
       if lp && truthy m then
         submit (set_status (set_model (pop_task app) m) "Predicting labels ...")
                (PredictTask (if us then feature_data_skimage app
                              else feature_data_tomotwin app))
       else set_model (pop_task app) m) \/
  (exists features q P,
     executor app = PredictTask features :: q /\
     predict app features = Ok P /\
     app' = set_status (set_prediction_layer_data (pop_task app) (transpose P)) "Ready").
Proof.
  unfold run_task. destruct (executor app) as [|[l f mt lp us|f] q] eqn:E.
  - intros [= <-]. by left.
  - intros (m & Hm & ->)%on_model_fit_cases. right; left.
    by exists l, f, mt, lp, us, q, m.
  - unfold on_prediction.
    change (predict (pop_task app) f) with (predict app f).
    destruct (predict app f) as [P|] eqn:HP; cbn [mbind result_bind]; [|done].
    intros [= <-]. right; right. by exists f, q, P.
Qed.

(** X10: The fit / predict cycle only reads the image, the features and the
    painting: whatever sequence of data changes, view changes and
    finished jobs, these arrays are the ones it started with, and a store
    that satisfies the data model keeps satisfying it. *)
Theorem cycle_preserves_store app app' :
  rtc cycle_step app app' ->
  same_store app app' /\
  (forall s F1 F2, volume_invariant app s F1 F2 -> volume_invariant app' s F1 F2).
Proof.
  assert (forall a b, cycle_step a b -> same_store a b) as Hstep.
  { intros a b [H|[H|H]].
    - apply on_data_change_cases in H as (f & l & _ & ->).
      by destruct (live_fit_checkbox (widget a)).
    - unfold on_view_change in H. destruct (negb _).
      + apply on_data_change_cases in H as (f & l & _ & ->).
        by destruct (live_fit_checkbox (widget a)).
      + by simplify_eq.
    - apply run_task_cases in H as [[_ ->]|[H|H]]; [done| |].
      + destruct H as (l & f & mt & lp & us & q & m & _ & _ & ->).
        by destruct (lp && truthy m).
      + by destruct H as (f & q & P & _ & _ & ->). }
  intros Hrtc.
  assert (same_store app app') as Hsame.
  { induction Hrtc as [a|a b c Hab _ IH]; [done|].
    destruct (Hstep _ _ Hab) as (H1 & H2 & H3 & H4).
    destruct IH as (H1' & H2' & H3' & H4').
    repeat split; congruence. }
  split; [done|].
  destruct Hsame as (H1 & H2 & H3 & H4).
  intros s F1 F2 []. constructor; congruence.
Qed.

(** X11: Every finished job leaves strictly less work in the queue: a fit job
    is followed by at most one predict job and a predict job by none. *)
Theorem run_task_makes_progress app app' :
  executor app ≠ [] ->
  run_task rf_fit xgb_fit app = Ok app' ->
  pending_work (executor app') < pending_work (executor app).
Proof.
  intros Hne H. apply run_task_cases in H as [[? _]|[H|H]]; [done| |].
  - destruct H as (l & f & mt & lp & us & q & m & Hq & _ & ->).
    destruct (lp && truthy m); unfold pending_work; simpl; rewrite Hq; simpl;
      rewrite ?map_app, ?sum_list_with_app; simpl; lia.
  - destruct H as (f & q & P & Hq & _ & ->). unfold pending_work. simpl.
    rewrite Hq. simpl. lia.
Qed.

(** X13: Without a stored model [predict] raises on every input, and a queued
    predict job then fails without touching the prediction layer. *)
Theorem predict_needs_a_model app features :
  model app = None ->
  (exists e, predict app features = Raise e) /\
  (forall q, executor app = PredictTask features :: q ->
     exists e, run_task rf_fit xgb_fit app = Raise e).
Proof.
  intros Hm. destruct (predict_no_model app features Hm) as [e He].
  split; [by eauto|]. intros q Hq. exists e.
  unfold run_task. rewrite Hq. unfold on_prediction.
  change (predict (pop_task app) features) with (predict app features).
  by rewrite He.
Qed.

(** X9: A data change never touches the model or the prediction. Whenever the
    gathering succeeds, also when it gathers no label at all, it submits
    one fit job and sets the status if live fitting is on, and does
    nothing otherwise. *)
Theorem data_change_effect app app' :
  on_data_change app = Ok app' ->
  model app' = model app /\
  prediction_layer_data app' = prediction_layer_data app /\
  (live_fit_checkbox (widget app) = false -> app' = app) /\
  (live_fit_checkbox (widget app) = true ->
     exists features labels,
       _get_training_features_and_labels app (data_dropdown (widget app)) false true
         = Ok (features, labels) /\
       status (widget app') = "Fitting model ..." /\
       executor app' =
         executor app ++ [FitTask labels features (model_dropdown (widget app))
                                  (live_pred_checkbox (widget app)) false]).
Proof.
  intros (f & l & Hg & ->)%on_data_change_cases.
  destruct (live_fit_checkbox (widget app)); repeat split; try done.
  intros _. by exists f, l.
Qed.

End Orchestrator.

(** ** From a paint event to the overlay *)

Section Cycle.

Context {R : Type} `{!Inhabited R}.
Variable rf_fit : ndarray R -> list Z -> gmap Z Q -> result (Classifier (R:=R)).
Variable xgb_fit : ndarray R -> list Z -> list (option Q) -> result (Classifier (R:=R)).
Implicit Types (app : App (R:=R)).

(** X12: From a paint event to the overlay: with both live toggles on, an idle
    worker and a fit that succeeds, the event and the two jobs it brings
    end with the status "Ready", an empty queue, the new model stored, and
    the prediction layer holding the model's classes plus one in the shape
    of the volume. *)
Theorem paint_event_runs_to_ready app Zd Yd Xd F1 F2 features labels clf :
  volume_invariant app [Zd; Yd; Xd] F1 F2 ->
  live_fit_checkbox (widget app) = true ->
  live_pred_checkbox (widget app) = true ->
  executor app = [] ->
  _get_training_features_and_labels app (data_dropdown (widget app)) false true
    = Ok (features, labels) ->
  fit_model rf_fit xgb_fit labels features (model_dropdown (widget app))
    = Ok (Some clf) ->
  exists app1 app2 app3,
    on_data_change app = Ok app1 /\
    run_task rf_fit xgb_fit app1 = Ok app2 /\
    run_task rf_fit xgb_fit app2 = Ok app3 /\
    status (widget app1) = "Fitting model ..." /\
    status (widget app2) = "Predicting labels ..." /\
    status (widget app3) = "Ready" /\
    executor app3 = [] /\
    model app3 = Some clf /\
    prediction_layer_data app3 =
      NDArray [Zd; Yd; Xd]
        (map (fun c => (c + 1)%Z)
             (flat_classes clf F2 (data (feature_data_tomotwin app))
                           (size_of [Zd; Yd; Xd]))).
Proof.
  intros Hinv Hfit_on Hpred_on Hidle Hgather Hfit.
  eexists _, _, _. split.
  { unfold on_data_change. rewrite Hgather. cbn [mbind result_bind].
    rewrite shape_guard_dead, Hfit_on. reflexivity. }
  split.
  { unfold run_task. cbn [executor submit set_status].
    rewrite Hidle. cbn [Datatypes.app].
    rewrite Hfit. unfold on_model_fit. cbn [mbind result_bind].
    rewrite Hpred_on. cbn [truthy andb]. reflexivity. }
  split.
  { unfold run_task. cbn [executor submit set_status set_model pop_task].
    rewrite Hidle. cbn [Datatypes.app tail].
    erewrite predict_ok;
      [|reflexivity|exact (inv_tomotwin_wf _ _ _ _ Hinv)
       |exact (inv_tomotwin_shape _ _ _ _ Hinv)|exact (inv_tomotwin_dim _ _ _ _ Hinv)].
    unfold on_prediction. cbn [mbind result_bind]. reflexivity. }
  split; [reflexivity|]. split; [reflexivity|]. split; [reflexivity|].
  split; [cbn; by rewrite Hidle|]. split; [reflexivity|].
  cbn [prediction_layer_data set_status set_prediction_layer_data].
  apply transpose_involutive. unfold wf. cbn [data shape].
  by rewrite length_map, length_flat_classes.
Qed.

End Cycle.

(** ** The class distribution charts *)

Section ChartLemmas.

Lemma mapM_ok {A B} (f : A -> result B) (g : A -> B) (l : list A) :
  (forall x, x ∈ l -> f x = Ok (g x)) -> mapM f l = Ok (map g l).
Proof.
  induction l as [|x l IH]; intros Hf; [done|].
  cbn [mapM]. rewrite (Hf x) by set_solver. cbn [mbind result_bind].
  rewrite IH by (intros; apply Hf; set_solver). done.
Qed.

Lemma filter_none {A} (P : A -> Prop) `{!forall x, Decision (P x)} (l : list A) :
  (forall x, x ∈ l -> ~ P x) -> filter P l = [].
Proof.
  intros Hnone. apply length_zero_iff_nil, length_filter_none, Forall_forall. done.
Qed.

Lemma where_eq_NoDup labels label i :
  NoDup labels -> labels !! i = Some label -> where_eq labels label = [i].
Proof.
  intros Hnd Hi. unfold where_eq.
  pose proof (lookup_lt_Some _ _ _ Hi) as Hlt.
  replace (length labels) with (i + (1 + (length labels - S i))) by lia.
  rewrite !seq_app, !filter_app. cbn [seq].
  assert (forall j, labels !! j = Some label -> j = i) as Huniq.
  { intros j Hlk. by eapply NoDup_lookup. }
  rewrite (filter_none _ (seq 0 i)).
  2:{ intros j Hj%elem_of_seq Hlk. apply Huniq in Hlk. lia. }
  rewrite filter_cons_True by (by rewrite Nat.add_0_l).
  rewrite (filter_none _ (seq _ _)).
  2:{ intros j Hj%elem_of_seq Hlk. apply Huniq in Hlk. lia. }
  rewrite filter_nil. simpl. done.
Qed.

Lemma aligned_count_ok labels (cnt : Z -> nat) label :
  NoDup labels ->
  aligned_count labels (map cnt labels) label =
    Ok (if decide (label ∈ labels) then cnt label else 0).
Proof.
  intros Hnd. unfold aligned_count. destruct (decide (label ∈ labels)) as [Hin|]; [|done].
  apply list_elem_of_lookup in Hin as [i Hi].
  rewrite (where_eq_NoDup _ _ _ Hnd Hi). unfold fancy_index. cbn [mapM].
  assert (at_ (map cnt labels) i = Ok (cnt label)) as ->.
  { unfold at_. change (map cnt labels) with (cnt <$> labels).
    by rewrite list_lookup_fmap, Hi. }
  done.
Qed.

Lemma count_notin c l : c ∉ l -> count c l = 0.
Proof.
  intros Hc. unfold count. apply length_filter_none, Forall_forall.
  intros x Hx ->. done.
Qed.

Lemma count_cons c x l :
  count c (x :: l) = (if decide (x = c) then 1 else 0) + count c l.
Proof. unfold count. rewrite filter_cons. by destruct (decide (x = c)). Qed.

Lemma sum_indicator (x : Z) (u : list Z) :
  NoDup u -> x ∈ u ->
  sum_list (map (fun c => if decide (x = c) then 1 else 0) u) = 1.
Proof.
  induction 1 as [|c u Hc Hnd IH]; intros Hx; [by apply elem_of_nil in Hx|].
  cbn [map sum_list_with]. unfold id at 1.
  apply elem_of_cons in Hx as [->|Hx].
  - rewrite decide_True by done.
    assert (sum_list (map (fun c0 => if decide (c = c0) then 1 else 0) u) = 0) as ->; [|done].
    clear IH Hnd. induction u as [|d u IHu]; [done|].
    cbn [map sum_list_with]. unfold id at 1.
    apply not_elem_of_cons in Hc as [Hne Hc].
    rewrite decide_False by done. by rewrite IHu.
  - rewrite decide_False by (intros ->; done). by rewrite IH.
Qed.

Lemma sum_list_map_add {A} (f g : A -> nat) (l : list A) :
  sum_list (map (fun x => f x + g x) l) = sum_list (map f l) + sum_list (map g l).
Proof.
  induction l as [|x l IH]; [done|]. cbn [map sum_list_with]. unfold id.
  unfold id in IH. rewrite IH. lia.
Qed.

(** Over labels that are distinct and cover the data, the counts add up
    to the number of entries. *)
Lemma sum_counts (u l : list Z) :
  NoDup u -> (forall x, x ∈ l -> x ∈ u) ->
  sum_list (map (fun c => count c l) u) = length l.
Proof.
  intros Hnd. induction l as [|x l IH]; intros Hsub.
  - clear Hnd Hsub. induction u as [|c u IHu]; [done|].
    cbn [map sum_list_with]. by rewrite IHu.
  - erewrite (Forall_fmap_ext_1 (fun c => count c (x :: l))).
    2:{ apply Forall_forall. intros c _. apply count_cons. }
    change (@fmap list _ _ _ ?f ?k) with (map f k).
    rewrite sum_list_map_add, sum_indicator; [|done|apply Hsub; set_solver].
    rewrite IH by (intros; apply Hsub; set_solver). done.
Qed.


Lemma aligned_counts_exact (u all : list Z) (l : list Z) :
  NoDup u -> (forall x, x ∈ l -> x ∈ u) ->
  mapM (aligned_count u (map (fun c => length (filter (fun x => x = c) l)) u)) all =
    Ok (map (fun c => count c l) all).
Proof.
  intros Hnd Hsub. apply mapM_ok. intros c _.
  rewrite (aligned_count_ok u (fun c => length (filter (fun x => x = c) l)) c Hnd).
  f_equal. destruct (decide (c ∈ u)); [done|].
  symmetry. apply count_notin. intros Hc. by apply Hsub in Hc.
Qed.

End ChartLemmas.

Section ChartClaims.

Context {R : Type}.
Implicit Types (app : App (R:=R)).

(** The labels of the prediction chart: class 0 is put in front when the
    prediction does not hold it. *)
Lemma charts_ok app :
  shape (painting_data app) ≠ [] -> shape (prediction_layer_data app) ≠ [] ->
  let P := data (painting_data app) in
  let Q := data (prediction_layer_data app) in
  let all :=
    unique (unique P ++ (if decide (0%Z ∉ unique Q) then 0%Z :: unique Q else unique Q)) in
  update_class_distribution_charts app =
    Ok {| all_labels := all;
          aligned_painting_counts := map (fun c => count c P) all;
          aligned_prediction_counts := map (fun c => count c Q) all |}.
Proof.
  intros Hp Hq P Q all. unfold update_class_distribution_charts, all_entries.
  rewrite !decide_False by done. cbn [mbind result_bind]. unfold unique_counts.
  fold P Q.
  assert (forall x, x ∈ P -> x ∈ unique P) as HsubP by (intros; by apply elem_of_unique).
  assert (forall x, x ∈ Q -> x ∈ unique Q) as HsubQ by (intros; by apply elem_of_unique).
  pose proof (sorted_NoDup _ (unique_sorted P)) as HndP.
  pose proof (sorted_NoDup _ (unique_sorted Q)) as HndQ.
  subst all. destruct (decide (0%Z ∉ unique Q)) as [H0|H0].
  - rewrite (aligned_counts_exact (unique P) _ P HndP HsubP). cbn [mbind result_bind].
    assert (0 = length (filter (fun x => x = 0%Z) Q)) as E0.
    { symmetry. apply (count_notin 0%Z Q). by rewrite <- elem_of_unique. }
    rewrite E0 at 1.
    change (length (filter (fun x => x = 0%Z) Q)
            :: map (fun c => length (filter (fun x => x = c) Q)) (unique Q))
      with (map (fun c => length (filter (fun x => x = c) Q)) (0%Z :: unique Q)).
    rewrite (aligned_counts_exact (0%Z :: unique Q) _ Q).
    + done.
    + by constructor.
    + intros x Hx. right. by apply HsubQ.
  - rewrite (aligned_counts_exact (unique P) _ P HndP HsubP). cbn [mbind result_bind].
    rewrite (aligned_counts_exact (unique Q) _ Q HndQ HsubQ). done.
Qed.

(** X15: The class axis of the charts holds every label of the painting and of
    the prediction, and class 0 in any case, each once and in increasing
    order; the two bar heights over a label are its numbers of voxels in
    the painting and in the prediction. *)
Theorem chart_counts_are_exact app :
  shape (painting_data app) ≠ [] -> shape (prediction_layer_data app) ≠ [] ->
  exists chart,
    update_class_distribution_charts app = Ok chart /\
    (forall c, c ∈ all_labels chart <->
               c ∈ data (painting_data app) \/ c ∈ data (prediction_layer_data app) \/
               c = 0%Z) /\
    StronglySorted Z.lt (all_labels chart) /\
    aligned_painting_counts chart =
      map (fun c => count c (data (painting_data app))) (all_labels chart) /\
    aligned_prediction_counts chart =
      map (fun c => count c (data (prediction_layer_data app))) (all_labels chart).
Proof.
  intros Hp Hq. eexists. split; [by apply charts_ok|]. cbn.
  split; [|split; [apply unique_sorted|done]].
  intros c. rewrite elem_of_unique, elem_of_app, elem_of_unique.
  destruct (decide (0%Z ∉ unique (data (prediction_layer_data app)))) as [H0|H0].
  - rewrite elem_of_cons, elem_of_unique. tauto.
  - rewrite elem_of_unique. apply dec_stable in H0. rewrite elem_of_unique in H0.
    split; [tauto|]. intros [?|[?|Hc]]; [tauto|tauto|]. subst c. tauto.
Qed.

(** X16: The bars of each chart add up to the number of voxels of its array. *)
Theorem chart_counts_add_up app :
  shape (painting_data app) ≠ [] -> shape (prediction_layer_data app) ≠ [] ->
  exists chart,
    update_class_distribution_charts app = Ok chart /\
    length (aligned_painting_counts chart) = length (all_labels chart) /\
    length (aligned_prediction_counts chart) = length (all_labels chart) /\
    sum_list (aligned_painting_counts chart) = length (data (painting_data app)) /\
    sum_list (aligned_prediction_counts chart) =
      length (data (prediction_layer_data app)).
Proof.
  intros Hp Hq. eexists. split; [by apply charts_ok|]. cbn.
  rewrite !length_map. split; [done|]. split; [done|].
  set (all := unique _).
  assert (NoDup all) as Hnd by apply sorted_NoDup, unique_sorted.
  split; apply sum_counts; try done; intros x Hx; subst all;
    rewrite elem_of_unique, elem_of_app, elem_of_unique.
  - by left.
  - right. destruct (decide _); [right|]; by apply elem_of_unique.
Qed.

End ChartClaims.

(** ** Background estimation, again *)

Section Extensionality.

Context {A : Type} `{!Inhabited A}.

(** Two well-formed arrays of one shape with the same entries are equal. *)
Lemma ndarray_ext (a b : ndarray A) :
  wf a -> wf b -> shape a = shape b ->
  (forall idx, in_bounds idx (shape a) -> item a idx = item b idx) ->
  a = b.
Proof.
  destruct a as [s d], b as [s' d']. unfold wf, item. simpl.
  intros Hwa Hwb <- Hitem. f_equal.
  apply list_eq_same_length with (size_of s); [done|done|].
  intros k x y Hk Hx Hy.
  specialize (Hitem (unravel s k) (unravel_in_bounds s k Hk)).
  rewrite ravel_unravel in Hitem by done.
  rewrite !list_lookup_total_alt, Hx, Hy in Hitem. done.
Qed.

End Extensionality.

Section BackgroundExtras.

Context {R : Type} `{!Inhabited R}.
Variable Rzero : R.
Variables Radd Rsub Rmul : R -> R -> R.
Variable Rsqrt : R -> R.
Variable Rltb : R -> R -> bool.
Variable np_median : list R -> R.
Variable np_percentile : list R -> nat -> R.

Notation paint_background :=
  (_paint_background_thread Rzero Radd Rsub Rmul Rsqrt Rltb np_median np_percentile).
Notation distance := (voxel_distance Rzero Radd Rsub Rmul Rsqrt np_median).
Notation threshold := (distance_threshold Rzero Radd Rsub Rmul Rsqrt np_median np_percentile).

Lemma paint_background_result (app : App (R:=R)) Zd Yd Xd F1 F2 :
  volume_invariant app [Zd; Yd; Xd] F1 F2 ->
  exists painting,
    paint_background app = Ok (set_painting_data app painting) /\
    shape painting = [Zd; Yd; Xd] /\ wf painting /\
    forall idx, in_bounds idx [Zd; Yd; Xd] ->
      item painting idx =
        if Rltb (distance app idx) (threshold app) then 1%Z
        else item (painting_data app) idx.
Proof.
  intros Hinv.
  pose proof (inv_tomotwin_shape _ _ _ _ Hinv) as E. cbn [Datatypes.app] in E.
  pose proof (inv_painting_shape _ _ _ _ Hinv) as Ep.
  pose proof (inv_painting_wf _ _ _ _ Hinv) as Hwfp.
  unfold _paint_background_thread. rewrite E. cbn zeta.
  set (voxels := map (row F2 (data (feature_data_tomotwin app))) (seq 0 (Zd * Yd * Xd))).
  set (med := median_embedding np_median F2 voxels).
  set (dists := map (euclidean Rzero Radd Rsub Rmul Rsqrt med) voxels).
  cbn [flatten data shape].
  set (thr := np_percentile dists 1).
  set (mask := NDArray [Zd; Yd; Xd] (map (fun d => Rltb d thr) dists)).
  assert (wf mask) as Hwfm.
  { unfold wf, mask, dists, voxels. cbn [data shape size_of foldr].
    rewrite !length_map, length_seq. lia. }
  rewrite (where_3d mask Zd Yd Xd eq_refl). cbn zeta.
  set (hits := map (unravel [Zd; Yd; Xd]) (nonzero_flat mask)).
  cbn [lookup list_lookup mbind result_bind]. rewrite length_map.
  rewrite paint_loop_all.
  2:{ apply Forall_forall. intros h (k & -> & _)%list_elem_of_fmap.
      apply length_unravel. }
  2:{ apply Forall_forall. intros i Hi%elem_of_seq. lia. }
  rewrite map_lookup_total_seq.
  destruct (paint_all_spec (painting_data app) hits [Zd; Yd; Xd] Hwfp Ep
              (hits_in_bounds mask Hwfm)) as (p' & Hp' & Hs' & Hwf' & Hitem).
  rewrite Hp'. cbn [mbind result_bind].
  exists p'. split; [reflexivity|]. split; [done|]. split; [done|].
  intros idx Hidx. rewrite (Hitem idx Hidx).
  pose proof (elem_of_hits mask idx Hwfm Hidx) as Hiff. fold hits in Hiff.
  pose proof (ravel_lt _ _ Hidx) as Hlt.
  assert (size_of [Zd; Yd; Xd] = Zd * Yd * Xd) as Hsz by (simpl; lia).
  assert (data mask !! ravel [Zd; Yd; Xd] idx =
          Some (Rltb (distance app idx) (threshold app))) as Hm.
  { unfold mask, dists, voxels. cbn [data].
    rewrite !list_lookup_fmap, lookup_seq_lt by lia. cbn.
    unfold voxel_distance, distance_threshold, median_vector, voxel_vectors.
    rewrite (shape_init_snoc _ [Zd; Yd; Xd] F2 E), E. cbn [last default].
    rewrite Hsz. done. }
  change (shape mask) with [Zd; Yd; Xd] in Hiff. rewrite Hm in Hiff.
  destruct (Rltb (distance app idx) (threshold app)).
  - rewrite decide_True; [done|]. by apply Hiff.
  - rewrite decide_False; [done|]. intros Hin%Hiff. done.
Qed.

(** X17: Estimating the background a second time changes nothing: the state
    after one run is a fixed point of the job. *)
Theorem background_estimation_idempotent (app app1 : App (R:=R)) Zd Yd Xd F1 F2 :
  volume_invariant app [Zd; Yd; Xd] F1 F2 ->
  paint_background app = Ok app1 ->
  paint_background app1 = Ok app1.
Proof.
  intros Hinv Hrun.
  destruct (paint_background_result app Zd Yd Xd F1 F2 Hinv)
    as (p1 & Hrun1 & Hs1 & Hwf1 & Hitem1).
  rewrite Hrun1 in Hrun. injection Hrun as <-.
  assert (volume_invariant (set_painting_data app p1) [Zd; Yd; Xd] F1 F2) as Hinv1.
  { destruct Hinv. by constructor. }
  destruct (paint_background_result _ Zd Yd Xd F1 F2 Hinv1)
    as (p2 & Hrun2 & Hs2 & Hwf2 & Hitem2).
  rewrite Hrun2. f_equal.
  assert (p2 = p1) as ->; [|done].
  apply ndarray_ext; [done|done|congruence|].
  intros idx Hidx. rewrite Hs2 in Hidx. rewrite (Hitem2 idx Hidx).
  change (distance (set_painting_data app p1) idx) with (distance app idx).
  change (threshold (set_painting_data app p1)) with (threshold app).
  cbn [painting_data set_painting_data].
  rewrite (Hitem1 idx Hidx). by destruct (Rltb _ _).
Qed.

(** X18: Background estimation only ever adds labels: a labelled voxel stays
    labelled, and a voxel that held the background class keeps it. *)
Theorem background_estimation_keeps_labels (app app1 : App (R:=R)) Zd Yd Xd F1 F2 idx :
  volume_invariant app [Zd; Yd; Xd] F1 F2 ->
  paint_background app = Ok app1 ->
  in_bounds idx [Zd; Yd; Xd] ->
  (item (painting_data app) idx ≠ 0%Z -> item (painting_data app1) idx ≠ 0%Z) /\
  (item (painting_data app) idx = 1%Z -> item (painting_data app1) idx = 1%Z).
Proof.
  intros Hinv Hrun Hidx.
  destruct (paint_background_result app Zd Yd Xd F1 F2 Hinv)
    as (p1 & Hrun1 & _ & _ & Hitem1).
  rewrite Hrun1 in Hrun. injection Hrun as <-.
  cbn [painting_data set_painting_data]. rewrite (Hitem1 idx Hidx).
  destruct (Rltb _ _); split; done.
Qed.

End BackgroundExtras.

(** ** Entries of a prediction *)

Section PredictEntries.

Context {R : Type} `{!Inhabited R}.
Implicit Types (app : App (R:=R)) (clf : Classifier (R:=R)) (features : ndarray R).



End PredictEntries.

(** ** The further properties on concrete inputs *)

Section MoreInputs.

Import Examples MoreExamples.

Lemma app_empty_view_invariant : volume_invariant app_empty_view [1; 2; 2] 1 2.
Proof. by constructor. Qed.

Lemma whole_image_mask_selects_all_witness :
  exists mask,
    _get_mask_idx app0 "Whole Image" = Ok mask /\
    length mask = length (shape (image_data app0)) /\
    getitem (feature_data_tomotwin app0) mask = Ok (feature_data_tomotwin app0).
Proof.
  apply (whole_image_mask_selects_all app0 (feature_data_tomotwin app0) [2]).
  - reflexivity.
  - reflexivity.
Defined.

Lemma displayed_region_labels_witness :
  exists mask active_image active_labels,
    _get_mask_idx app0 "Current Displayed Region" = Ok mask /\
    _get_active_image_and_labels app0 mask = Ok (active_image, active_labels) /\
    shape active_labels = [1; 2; 2] /\
    item active_labels [0; 0; 1] = item (painting_data app0) [0; 0; 1].
Proof.
  destruct (displayed_region_labels app0 "Current Displayed Region" 1 2 2 1 2
              0 0 2 0 2 app0_invariant)
    as (mask & img & lab & Hmask & Hreg & _ & Hshape & Hitem).
  - discriminate.
  - reflexivity.
  - reflexivity.
  - reflexivity.
  - reflexivity.
  - reflexivity.
  - exists mask, img, lab. split; [exact Hmask|]. split; [exact Hreg|].
    split; [exact Hshape|]. apply (Hitem 0 1); simpl; lia.
Defined.

Lemma empty_region_is_silent_witness :
  exists mask active_image active_labels,
    _get_mask_idx app_empty_view "Current Displayed Region" = Ok mask /\
    _get_active_image_and_labels app_empty_view mask = Ok (active_image, active_labels) /\
    data active_labels = [] /\ data active_image = [].
Proof.
  apply (empty_region_is_silent app_empty_view "Current Displayed Region" 1 2 2 1 2
           0 0 0 0 2 app_empty_view_invariant).
  - discriminate.
  - reflexivity.
  - reflexivity.
  - reflexivity.
  - reflexivity.
  - reflexivity.
  - right. left. lia.
Defined.

Lemma gathered_training_data_is_consistent_witness :
  exists X y F,
    training_set (squeeze (painting_data app0)) (feature_data_tomotwin app0)
      = Ok (X, y) /\
    shape X = [length y; F] /\
    y = map (fun l => (l - 1)%Z)
            (filter (fun l => (l > 0)%Z) (data (squeeze (painting_data app0)))).
Proof.
  apply (gathered_training_data_is_consistent app0 "Whole Image" false true
           1 2 2 1 2 (feature_data_tomotwin app0) (squeeze (painting_data app0))
           app0_invariant).
  vm_compute. reflexivity.
Defined.

Lemma invalid_data_choice_is_refused_witness :
  exists e, _get_training_features_and_labels app0 "Everything" false true = Raise e.
Proof.
  apply (invalid_data_choice_is_refused app0 "Everything" false true).
  - discriminate.
  - discriminate.
Defined.

Lemma class_weights_favour_rare_classes_witness :
  exists d, weight_dict [0; 0; 1]%Z = Ok d /\
    (forall c, is_Some (d !! c) <-> c ∈ [0; 0; 1]%Z) /\
    (forall c w, d !! c = Some w -> (0 < w)%Q) /\
    (forall c1 c2 w1 w2,
       d !! c1 = Some w1 -> d !! c2 = Some w2 ->
       count c1 [0; 0; 1]%Z <= count c2 [0; 0; 1]%Z -> (w2 <= w1)%Q).
Proof.
  apply (class_weights_favour_rare_classes [0; 0; 1]%Z). discriminate.
Defined.

Lemma unsupported_model_type_witness :
  fit_model rf_stump xgb_stump (squeeze (painting_data app0))
            (feature_data_tomotwin app0) "SVM"
    = Raise (ValueError "Unsupported model type: SVM").
Proof.
  rewrite (unsupported_model_type rf_stump xgb_stump (squeeze (painting_data app0))
             (feature_data_tomotwin app0) [1; 2; 2] 2 "SVM").
  - reflexivity.
  - discriminate.
  - reflexivity.
  - reflexivity.
  - lia.
  - reflexivity.
  - discriminate.
  - discriminate.
Defined.

Lemma sample_weights_are_class_weights_witness :
  exists sample_weights,
    fit_model rf_stump xgb_stump (squeeze (painting_data app0))
              (feature_data_tomotwin app0) "XGBoost" =
      (clf ← xgb_stump (NDArray [2; 2] [0; 1; 10; 11]%Z) [0; 2]%Z sample_weights;
       Ok (Some clf)) /\
    sample_weights =
      map (fun c => Some (balanced 2 (length (unique [0; 2]%Z)) (count c [0; 2]%Z)))
          [0; 2]%Z.
Proof.
  apply (sample_weights_are_class_weights rf_stump xgb_stump
           (squeeze (painting_data app0)) (feature_data_tomotwin app0)
           (NDArray [2; 2] [0; 1; 10; 11]%Z) [0; 2]%Z).
  - discriminate.
  - vm_compute. reflexivity.
  - discriminate.
Defined.

Lemma cycle_preserves_store_witness :
  same_store app_erased app_fitting /\
  (forall s F1 F2,
     volume_invariant app_erased s F1 F2 -> volume_invariant app_fitting s F1 F2).
Proof.
  apply (cycle_preserves_store rf_stump xgb_stump app_erased app_fitting).
  apply rtc_once. left. vm_compute. reflexivity.
Defined.

Lemma run_task_makes_progress_witness :
  pending_work (executor (set_model (pop_task app_fitting) None))
    < pending_work (executor app_fitting).
Proof.
  apply (run_task_makes_progress rf_stump xgb_stump app_fitting).
  - discriminate.
  - vm_compute. reflexivity.
Defined.

Lemma predict_needs_a_model_witness :
  (exists e, predict app0 (feature_data_tomotwin app0) = Raise e) /\
  (forall q, executor app0 = PredictTask (feature_data_tomotwin app0) :: q ->
     exists e, run_task rf_stump xgb_stump app0 = Raise e).
Proof.
  apply (predict_needs_a_model rf_stump xgb_stump app0 (feature_data_tomotwin app0)).
  reflexivity.
Defined.

Lemma paint_event_runs_to_ready_witness :
  exists app1 app2 app3,
    on_data_change app0 = Ok app1 /\
    run_task rf_stump xgb_stump app1 = Ok app2 /\
    run_task rf_stump xgb_stump app2 = Ok app3 /\
    status (widget app3) = "Ready" /\
    executor app3 = [] /\
    prediction_layer_data app3 = NDArray [1; 2; 2] [1; 3; 1; 3]%Z.
Proof.
  destruct (paint_event_runs_to_ready rf_stump xgb_stump app0 1 2 2 1 2
              (feature_data_tomotwin app0) (squeeze (painting_data app0))
              (stump 0 [2]%Z) app0_invariant)
    as (app1 & app2 & app3 & H1 & H2 & H3 & _ & _ & Hs & Hq & _ & Hp).
  - reflexivity.
  - reflexivity.
  - reflexivity.
  - vm_compute. reflexivity.
  - vm_compute. reflexivity.
  - exists app1, app2, app3. split; [exact H1|]. split; [exact H2|].
    split; [exact H3|]. split; [exact Hs|]. split; [exact Hq|].
    rewrite Hp. vm_compute. reflexivity.
Defined.

Lemma chart_counts_are_exact_witness :
  exists chart,
    update_class_distribution_charts app0 = Ok chart /\
    (0%Z ∈ all_labels chart) /\
    aligned_painting_counts chart =
      map (fun c => count c (data (painting_data app0))) (all_labels chart).
Proof.
  destruct (chart_counts_are_exact app0) as (chart & Hc & Hall & _ & Hp & _).
  - discriminate.
  - discriminate.
  - exists chart. split; [exact Hc|]. split; [|exact Hp].
    apply Hall. right. right. reflexivity.
Defined.

Lemma chart_counts_add_up_witness :
  exists chart,
    update_class_distribution_charts app0 = Ok chart /\
    sum_list (aligned_painting_counts chart) = 4 /\
    sum_list (aligned_prediction_counts chart) = 4.
Proof.
  destruct (chart_counts_add_up app0) as (chart & Hc & _ & _ & Hp & Hq).
  - discriminate.
  - discriminate.
  - exists chart. split; [exact Hc|]. split; [exact Hp|exact Hq].
Defined.

Lemma background_estimation_idempotent_witness :
  _paint_background_thread 0%Z Z.add Z.sub Z.mul Z.sqrt Z.ltb z_median z_threshold
                           app0_background = Ok app0_background.
Proof.
  apply (background_estimation_idempotent 0%Z Z.add Z.sub Z.mul Z.sqrt Z.ltb
           z_median z_threshold app0 app0_background 1 2 2 1 2 app0_invariant).
  vm_compute. reflexivity.
Defined.

Lemma background_estimation_keeps_labels_witness :
  (item (painting_data app0) [0; 0; 1] ≠ 0%Z ->
   item (painting_data app0_background) [0; 0; 1] ≠ 0%Z) /\
  (item (painting_data app0) [0; 0; 1] = 1%Z ->
   item (painting_data app0_background) [0; 0; 1] = 1%Z).
Proof.
  apply (background_estimation_keeps_labels 0%Z Z.add Z.sub Z.mul Z.sqrt Z.ltb
           z_median z_threshold app0 app0_background 1 2 2 1 2 [0; 0; 1]
           app0_invariant).
  - vm_compute. reflexivity.
  - repeat constructor; lia.
Defined.


Lemma data_change_effect_witness :
  model app_fitting = model app_erased /\
  prediction_layer_data app_fitting = prediction_layer_data app_erased /\
  (live_fit_checkbox (widget app_erased) = false -> app_fitting = app_erased) /\
  (live_fit_checkbox (widget app_erased) = true ->
     exists features labels,
       _get_training_features_and_labels app_erased
         (data_dropdown (widget app_erased)) false true = Ok (features, labels) /\
       status (widget app_fitting) = "Fitting model ..." /\
       executor app_fitting =
         executor app_erased ++
           [FitTask labels features (model_dropdown (widget app_erased))
                    (live_pred_checkbox (widget app_erased)) false]).
Proof.
  apply (data_change_effect app_erased app_fitting).
  vm_compute. reflexivity.
Defined.

End MoreInputs.
